(** * Budget Manager Cloud: tab router and currency converter

    A shallow embedding of the client script of the repository (the
    [URLRouter] class, [showTab], the exchange-rate table [customRates]
    with [loadExchangeRates], [updateCustomRate], [convertCurrencyAmount]
    and [updateCurrencyPair]) and of the converter of
    [static/plaid_app.js], with the properties of the specification
    stated over it.

    JavaScript numbers are IEEE 754 binary64 values: they are modelled by
    Rocq's primitive floats, so the arithmetic of the conversions is the
    arithmetic the browser performs.  Strings are byte strings (the UTF-8
    encoding of the script's literals).  Plain objects used as
    dictionaries are finite maps ([gmap]) when only lookups matter and
    association lists when the enumeration order matters. *)

From Stdlib Require Import ZArith String Ascii List Bool Floats DecimalString Lia.
From stdpp Require Import gmap strings.
Import ListNotations.

Set Warnings "-inexact-float".

Local Open Scope string_scope.

(** ** String primitives of the script *)

Module JSString.

(** [path.startsWith(route)] *)
Definition startsWith (s pat : string) : bool := String.prefix pat s.

(** [s.includes(pat)]: [pat] occurs in [s] at some position. *)
Fixpoint includes (s pat : string) : bool :=
  String.prefix pat s ||
  match s with
  | EmptyString => false
  | String _ s' => includes s' pat
  end.

(** Truthiness of a string value: every string but the empty one. *)
Definition truthy (s : string) : bool := negb (String.eqb s "").

End JSString.

(** ** The URL router (class [URLRouter]) *)

Module Router.
Import JSString.

(** An object literal whose own keys are enumerated in insertion order.
    [obj_get] sees the own keys only: it is the lookup of the script for
    every name but those of the members every object inherits
    ([toString], [constructor], ...), in particular for every location
    path, see [isPathname].  [obj_member] below is the lookup for every
    string. *)
Definition jsobject := list (string * string).

(** [window.location.pathname] begins with a slash, which no inherited
    member name does. *)
Definition isPathname (path : string) : bool := startsWith path "/".

Fixpoint obj_get (o : jsobject) (k : string) : option string :=
  match o with
  | [] => None
  | (k', v) :: o' => if String.eqb k' k then Some v else obj_get o' k
  end.

(** [!tabName] for a looked-up member: [undefined] and [''] are falsy. *)
Definition falsy (v : option string) : bool :=
  match v with
  | None => true
  | Some s => negb (truthy s)
  end.

Record URLRouter := mkURLRouter {
  basePath : string;
  routes : jsobject
}.

(** The constructor, run with [window.location.pathname]. *)
Definition detectBasePath (pathname : string) : string :=
  if includes pathname "/budget-manager-cloud/"
  then "/budget-manager-cloud"
  else "".

Definition routesFor (base : string) : jsobject :=
  [ (base +:+ "/", "dashboard");
    (base +:+ "/banks", "banks");
    (base +:+ "/transactions", "transactions");
    (base +:+ "/advisor", "advisor") ].

Definition routerAt (base : string) : URLRouter :=
  {| basePath := base; routes := routesFor base |}.

Definition newURLRouter (pathname : string) : URLRouter :=
  routerAt (detectBasePath pathname).

(** The [for ... of Object.entries(this.routes)] loop of [handleRoute]:
    the first entry, in insertion order, whose key is a prefix of
    [path]; the loop [break]s there. *)
Fixpoint firstPrefixMatch (entries : jsobject) (path : string) : option string :=
  match entries with
  | [] => None
  | (route, tab) :: rest =>
      if startsWith path route then Some tab else firstPrefixMatch rest path
  end.

(** The view name [handleRoute] computes before it schedules [showTab]. *)
Definition resolve (r : URLRouter) (path : string) : string :=
  let tabName := obj_get (routes r) path in
  let tabName :=
    if falsy tabName then firstPrefixMatch (routes r) path else tabName in
  match tabName with
  | Some t => if truthy t then t else "dashboard"
  | None => "dashboard"
  end.

(** The [routeMap] literal of [navigateToTab]. *)
Definition routeMap (r : URLRouter) : jsobject :=
  [ ("dashboard", basePath r +:+ "/");
    ("banks", basePath r +:+ "/banks");
    ("transactions", basePath r +:+ "/transactions");
    ("advisor", basePath r +:+ "/advisor") ].

(** [navigateToTab(tabName)]: the URL handed to [history.pushState],
    if any ([history.pushState] itself is taken not to fail).  [routeMap]
    is read by its own keys: this is the script's lookup for every name
    but those of [inheritedMembers]. *)
Definition navigateToTab (r : URLRouter) (tabName : string) : option string :=
  match obj_get (routeMap r) tabName with
  | Some path => if truthy path then Some path else None
  | None => None
  end.



(** The names an object literal answers although they are not among its
    own keys: the members of [Object.prototype]. *)
Definition inheritedMembers : list string :=
  [ "constructor"; "toString"; "toLocaleString"; "valueOf";
    "hasOwnProperty"; "isPrototypeOf"; "propertyIsEnumerable"; "__proto__";
    "__defineGetter__"; "__defineSetter__"; "__lookupGetter__";
    "__lookupSetter__" ].

Definition inheritedMember (k : string) : bool :=
  existsb (String.eqb k) inheritedMembers.

(** What [o[k]] evaluates to: the string stored under an own key, or the
    inherited member of that name (a function, or the prototype object for
    [__proto__]), which is truthy and is not a string. *)
Inductive jsvalue :=
| JString (s : string)
| JInherited (name : string).

Definition obj_member (o : jsobject) (k : string) : option jsvalue :=
  match obj_get o k with
  | Some v => Some (JString v)
  | None => if inheritedMember k then Some (JInherited k) else None
  end.

Definition falsyValue (v : option jsvalue) : bool :=
  match v with
  | None => true
  | Some (JString s) => negb (truthy s)
  | Some (JInherited _) => false
  end.

(** The value of [tabName] when [handleRoute] schedules [showTab], for
    every string [path]; [resolve] above is its reading for the strings
    that name no inherited member, as every location path does. *)
Definition resolveValue (r : URLRouter) (path : string) : jsvalue :=
  let tabName := obj_member (routes r) path in
  let tabName :=
    if falsyValue tabName
    then option_map JString (firstPrefixMatch (routes r) path)
    else tabName in
  match tabName with
  | Some v => if falsyValue (Some v) then JString "dashboard" else v
  | None => JString "dashboard"
  end.

End Router.

(** ** The page: panels, tab buttons, history and [showTab] *)

Module Page.
Import JSString Router.

(** The part of an element the script reads or writes.  The document is
    the list of its elements in tree order. *)
Record Element := mkElement {
  el_id : option string;
  el_class : list string;
  el_onclick : option string
}.

Inductive Loader :=
| LoadDashboard | LoadBanks | LoadBanksForManagement | LoadAccounts
| LoadTransactions | LoadReports
| LoadBanksForSelect (selectId : string)
| LoadAccountsForSelect (selectId : string).

(** Callbacks handed to [setTimeout] and not yet run. *)
Inductive Timer :=
| TimerShowTab (tabName : string)
| TimerLoadBanksForManagement.

Record World := mkWorld {
  document : list Element;
  (** URLs passed to [history.pushState], oldest first *)
  history : list string;
  (** the global [router]; [None] while it is not yet defined *)
  router : option URLRouter;
  timers : list Timer;
  (** the asynchronous data loaders started so far, oldest first *)
  started : list Loader
}.

Inductive Exception := TypeError.

Inductive completion :=
| Returned (w : World)
| Thrown (e : Exception) (w : World).

Definition world_of (c : completion) : World :=
  match c with Returned w | Thrown _ w => w end.


Definition hasClass (c : string) (e : Element) : bool :=
  existsb (String.eqb c) (el_class e).

(** An element has an ID when its [id] attribute is present and not
    empty. *)
Definition hasId (id : string) (e : Element) : bool :=
  match el_id e with
  | Some i => truthy i && String.eqb i id
  | None => false
  end.

(** [classList.remove('active')] *)
Definition removeActive (e : Element) : Element :=
  {| el_id := el_id e;
     el_class := List.filter (fun c => negb (String.eqb c "active")) (el_class e);
     el_onclick := el_onclick e |}.

(** [classList.add('active')] *)
Definition addActive (e : Element) : Element :=
  if hasClass "active" e then e
  else {| el_id := el_id e;
          el_class := el_class e ++ ["active"];
          el_onclick := el_onclick e |}.

(** [document.querySelectorAll('.' + cls).forEach(e => e.classList.remove('active'))] *)
Definition deactivateAll (cls : string) (doc : list Element) : list Element :=
  map (fun e => if hasClass cls e then removeActive e else e) doc.

(** Apply [f] to the first element satisfying [p]; [None] when there is
    none ([getElementById] and [querySelector] return [null]). *)
Fixpoint updateFirst (p : Element -> bool) (f : Element -> Element)
    (doc : list Element) : option (list Element) :=
  match doc with
  | [] => None
  | e :: rest =>
      if p e then Some (f e :: rest)
      else option_map (cons e) (updateFirst p f rest)
  end.

(** The attribute selector [[onclick*="showTab('NAME')"]].  The reading
    as a substring test is that of the browser for names free of quotes
    and backslashes, see [plainName]. *)
Definition onclickShows (tabName : string) (e : Element) : bool :=
  match el_onclick e with
  | Some code => includes code ("showTab('" +:+ tabName +:+ "')")
  | None => false
  end.

(** View names made of letters, digits, [-] and [_]; the selector built
    from such a name is well formed. *)
Definition plainChar (c : ascii) : bool :=
  let n := nat_of_ascii c in
  ((48 <=? n) && (n <=? 57) || (65 <=? n) && (n <=? 90)
   || (97 <=? n) && (n <=? 122) || (n =? 45) || (n =? 95))%nat.

Fixpoint plainName (s : string) : bool :=
  match s with
  | EmptyString => true
  | String c s' => plainChar c && plainName s'
  end.

(** The [if ... else if] chain that ends [showTab] in the main script:
    the timers it sets and the loaders it starts. *)
Definition loadersFor (tabName : string) : list Timer * list Loader :=
  if String.eqb tabName "dashboard" then ([], [])
  else if String.eqb tabName "banks" then ([TimerLoadBanksForManagement], [])
  else if String.eqb tabName "accounts" then ([], [LoadAccounts])
  else if String.eqb tabName "transactions" then ([], [LoadTransactions])
  else if String.eqb tabName "reports" then ([], [LoadReports])
  else ([], []).

(** The history entries [showTab] pushes through [router.navigateToTab]. *)
Definition pushedBy (r : option URLRouter) (tabName : string) : list string :=
  match r with
  | Some r =>
      if negb (String.eqb tabName "dashboard") then
        match navigateToTab r tabName with
        | Some path => [path]
        | None => []
        end
      else []
  | None => []
  end.

(** [showTab(tabName)] of the main script. *)
Definition showTab (tabName : string) (w : World) : completion :=
  let doc := deactivateAll "tab" (deactivateAll "tab-content" (document w)) in
  match updateFirst (hasId tabName) addActive doc with
  | None =>
      (* [document.getElementById(tabName)] is [null] *)
      Thrown TypeError
        {| document := doc; history := history w; router := router w;
           timers := timers w; started := started w |}
  | Some doc =>
      let doc :=
        match updateFirst (onclickShows tabName) addActive doc with
        | Some doc' => doc'
        | None => doc
        end in
      let (ts, ls) := loadersFor tabName in
      Returned
        {| document := doc;
           history := history w ++ pushedBy (router w) tabName;
           router := router w;
           timers := timers w ++ ts;
           started := started w ++ ls |}
  end.

(** [handleRoute(path)]: resolves the view and defers [showTab] with
    [setTimeout(..., 0)].  Both callers pass
    [window.location.pathname], for which the value computed is the view
    name [resolve] gives. *)
Definition handleRoute (r : URLRouter) (path : string) (w : World) : World :=
  {| document := document w; history := history w; router := router w;
     timers := timers w ++ [TimerShowTab (resolve r path)];
     started := started w |}.

Definition runTimer (t : Timer) (w : World) : completion :=
  match t with
  | TimerShowTab tabName => showTab tabName w
  | TimerLoadBanksForManagement =>
      Returned
        {| document := document w; history := history w; router := router w;
           timers := timers w;
           started := started w ++ [LoadBanksForManagement] |}
  end.

(** One turn of the event loop over the timers [ts] that are due: each
    callback runs to completion; an exception that escapes a callback is
    reported by the browser and the loop goes on. *)
Fixpoint runTimers (ts : list Timer) (w : World) : World :=
  match ts with
  | [] => w
  | t :: ts' => runTimers ts' (world_of (runTimer t w))
  end.

(** A [popstate] event at location [path]: the listener installed by
    [init] calls [handleRoute], then the pending zero-delay callbacks
    run.  Without a router there is no listener. *)
Definition popstate (path : string) (w : World) : World :=
  match router w with
  | None => w
  | Some r =>
      let w1 := handleRoute r path w in
      runTimers (timers w1)
        {| document := document w1; history := history w1;
           router := router w1; timers := []; started := started w1 |}
  end.




(** A small page: two panels and their two tab buttons, the dashboard
    showing, the router started at the domain root. *)
Definition samplePage : World :=
  {| document :=
       [ {| el_id := Some "dashboard"; el_class := ["tab-content"; "active"];
            el_onclick := None |};
         {| el_id := Some "banks"; el_class := ["tab-content"];
            el_onclick := None |};
         {| el_id := None; el_class := ["tab"; "active"];
            el_onclick := Some "showTab('dashboard')" |};
         {| el_id := None; el_class := ["tab"];
            el_onclick := Some "showTab('banks')" |} ];
     history := [];
     router := Some (newURLRouter "/");
     timers := [];
     started := [] |}.


End Page.

(** ** Numbers: truthiness and [Number.prototype.toFixed] *)

Module JSNumber.
Local Open Scope Z_scope.

(** [!!x] for a number: every number but [0], [-0] and [NaN]. *)
Definition truthy (x : float) : bool :=
  negb (PrimFloat.is_zero x || PrimFloat.is_nan x).

(** A member read off an object and used as an operand: [undefined]
    becomes [NaN]. *)
Definition toNumber (v : option float) : float :=
  match v with
  | Some x => x
  | None => PrimFloat.nan
  end.

Definition falsy (v : option float) : bool :=
  match v with
  | Some x => negb (truthy x)
  | None => true
  end.

(** The decimal numeral of a natural number. *)
Definition decimal (n : Z) : string :=
  NilEmpty.string_of_uint (N.to_uint (Z.to_N n)).

Fixpoint zeros (n : nat) : string :=
  match n with
  | O => EmptyString
  | S n' => String "0" (zeros n')
  end.

(** The integer [n] for which [n / 10^digits - x] is as close to zero as
    possible, the larger one when there are two, for finite [x >= 0]:
    exact arithmetic on the mantissa and exponent of [x]. *)
Definition scaledRound (x : float) (digits : nat) : Z :=
  match Prim2SF x with
  | S754_finite _ m e =>
      let num := Z.pos m * 10 ^ Z.of_nat digits in
      if 0 <=? e then num * 2 ^ e
      else let den := 2 ^ (- e) in (2 * num + den) / (2 * den)
  | _ => 0
  end.

(** The decimal point is placed [digits] places from the right, with
    zeros added on the left when the numeral is too short. *)
Definition placePoint (m : string) (digits : nat) : string :=
  match digits with
  | O => m
  | _ =>
      let k := String.length m in
      let m := if (k <=? digits)%nat then zeros (S digits - k) +:+ m else m in
      let k := String.length m in
      String.substring 0 (k - digits) m +:+ "." +:+
      String.substring (k - digits) digits m
  end.

(** [Number::toString] for a finite [x >= 1e21], which is an integer:
    the shortest decimal numeral that reads back as [x], the closest to
    [x] among those, in exponent notation.  [shortest] tries [k] digits
    for [k = 1, 2, ...] (seventeen always suffice); [inside] tells whether
    an integer rounds to [x]. *)
Fixpoint shortest (fuel : nat) (k : Z) (X nd : Z) (inside : Z -> bool)
    : Z * Z :=
  match fuel with
  | O => (X, nd)
  | S fuel' =>
      let q := 10 ^ (nd - k) in
      let lo := X / q in
      let hi := lo + 1 in
      let okLo := inside (lo * q) in
      let okHi := inside (hi * q) in
      let pick :=
        if okLo && okHi then
          if X - lo * q <? hi * q - X then Some lo
          else if hi * q - X <? X - lo * q then Some hi
          else if Z.even lo then Some lo else Some hi
        else if okLo then Some lo
        else if okHi then Some hi
        else None in
      match pick with
      | Some s => (s, k)
      | None => shortest fuel' (k + 1) X nd inside
      end
  end.

Definition numberToStringLarge (x : float) : string :=
  match Prim2SF x with
  | S754_finite _ m e =>
      let X := Z.pos m * 2 ^ e in
      let up := 2 ^ (e - 1) in
      let down := if Z.pos m =? 2 ^ 52 then 2 ^ (e - 2) else 2 ^ (e - 1) in
      let inside v :=
        ((X - down <? v) && (v <? X + up))
        || (Z.even (Z.pos m) && ((v =? X - down) || (v =? X + up))) in
      let nd := Z.of_nat (String.length (decimal X)) in
      let '(s, k) := shortest 17 1 X nd inside in
      let '(s, n) := if s =? 10 ^ k then (1, nd + 1) else (s, nd) in
      let ds := decimal s in
      match ds with
      | EmptyString => EmptyString
      | String d rest =>
          String d (match rest with
                    | EmptyString => EmptyString
                    | _ => "." +:+ rest
                    end)
          +:+ "e+" +:+ decimal (n - 1)
      end
  | _ => EmptyString
  end.

(** [x.toFixed(digits)], for [digits] between 0 and 100. *)
Definition toFixed (x : float) (digits : nat) : string :=
  if PrimFloat.is_nan x then "NaN"
  else if PrimFloat.is_infinity x then
    if PrimFloat.ltb x 0%float then "-Infinity" else "Infinity"
  else
    let s := if PrimFloat.ltb x 0%float then "-" else "" in
    let x := PrimFloat.abs x in
    if PrimFloat.leb 1e21%float x
    then s +:+ numberToStringLarge x
    else s +:+ placePoint (decimal (scaledRound x digits)) digits.

End JSNumber.

(** ** The exchange-rate table and the converters *)

Module Rates.
Import JSNumber.
Local Open Scope float_scope.

(** One of the four currency-pair rows of the rates panel: the values of
    its two selects and the text of its rate cell. *)
Record PairRow := mkPairRow {
  pair_from : string;
  pair_to : string;
  pair_rate : string
}.

(** The state the rate functions share: the global [customRates] (its
    own entries, by currency code) and the pair rows present in the
    document, by pair number. *)
Record RatesPage := mkRatesPage {
  customRates : gmap string float;
  pairs : gmap nat PairRow
}.

(** The initial value of [customRates]. *)
Definition initialRates : gmap string float :=
  <["USD" := 1]> (<["CAD" := 1.35]> (<["EUR" := 0.85]>
    (<["UAH" := 41.0]> (<["RUB" := 83.0]> ∅)))).

(** What [fetch] and [response.json()] deliver.  The members of the
    provider's [rates] object are numbers; [BodyData None] is a parsed
    body without a usable [rates] member. *)
Inductive Body :=
| BodyUnparsable
| BodyData (rates : option (gmap string float)).

Inductive FetchOutcome :=
| FetchRejected
| FetchResponse (ok : bool) (body : Body).

(** [getCurrencySymbol] *)
Definition getCurrencySymbol (currency : string) : string :=
  if String.eqb currency "UAH" then "₴"
  else if String.eqb currency "EUR" then "€"
  else "$".

(** The text [updateCurrencyPair] writes into the rate cell. *)
Definition pairRateText (t : gmap string float) (fromCurrency toCurrency : string)
    : string :=
  if String.eqb fromCurrency toCurrency then "1.0000"
  else if falsy (t !! fromCurrency) || falsy (t !! toCurrency) then "N/A"
  else
    let usdAmount := 1 / toNumber (t !! fromCurrency) in
    let convertedAmount := usdAmount * toNumber (t !! toCurrency) in
    if PrimFloat.is_nan convertedAmount then "N/A"
    else toFixed convertedAmount 4.

(** [updateCurrencyPair(pairNumber)]: nothing happens when one of the
    three elements of the row is missing. *)
Definition updateCurrencyPair (pairNumber : nat) (st : RatesPage) : RatesPage :=
  match pairs st !! pairNumber with
  | None => st
  | Some row =>
      let text := pairRateText (customRates st) (pair_from row) (pair_to row) in
      {| customRates := customRates st;
         pairs := <[pairNumber :=
                      {| pair_from := pair_from row; pair_to := pair_to row;
                         pair_rate := text |}]> (pairs st) |}
  end.

(** [updateRatesUI]: [for (let i = 1; i <= 4; i++)] *)
Definition updateRatesUI (st : RatesPage) : RatesPage :=
  fold_left (fun s i => updateCurrencyPair i s) [1; 2; 3; 4]%nat st.

(** [if (rates.X) { customRates.X = rates.X; }] *)
Definition mergeRate (rates : gmap string float) (code : string)
    (t : gmap string float) : gmap string float :=
  match rates !! code with
  | Some x => if truthy x then <[code := x]> t else t
  | None => t
  end.

(** The assignments of the [try] block once [rates] is at hand. *)
Definition applyRates (rates : gmap string float) (t : gmap string float)
    : gmap string float :=
  mergeRate rates "RUB" (mergeRate rates "UAH" (mergeRate rates "EUR"
    (mergeRate rates "CAD" (<["USD" := 1]> t)))).

(** [loadExchangeRates()], given what the network delivers.  Every
    [throw] of the [try] block comes before the first assignment and is
    caught; both branches end with [updateRatesUI()]. *)
Definition loadExchangeRates (net : FetchOutcome) (st : RatesPage) : RatesPage :=
  match net with
  | FetchResponse true (BodyData (Some rates)) =>
      updateRatesUI
        {| customRates := applyRates rates (customRates st);
           pairs := pairs st |}
  | _ => updateRatesUI st
  end.

(** [updateCustomRate(fromCurrency, toCurrency, value)]; [rate] is
    [parseFloat(value)]. *)
Definition updateCustomRate (fromCurrency toCurrency : string) (rate : float)
    (st : RatesPage) : RatesPage :=
  if PrimFloat.is_nan rate then st
  else
    let set code :=
      {| customRates := <[code := rate]> (customRates st);
         pairs := pairs st |} in
    if String.eqb fromCurrency "CAD" && String.eqb toCurrency "USD" then set "CAD"
    else if String.eqb fromCurrency "USD" && String.eqb toCurrency "EUR" then set "EUR"
    else if String.eqb fromCurrency "USD" && String.eqb toCurrency "UAH" then set "UAH"
    else if String.eqb fromCurrency "USD" && String.eqb toCurrency "RUB" then set "RUB"
    else st.

(** The operations that write the table, as events of the page. *)
Inductive Operation :=
| OpLoadExchangeRates (net : FetchOutcome)
| OpUpdateCustomRate (fromCurrency toCurrency : string) (rate : float).

Definition step (st : RatesPage) (op : Operation) : RatesPage :=
  match op with
  | OpLoadExchangeRates net => loadExchangeRates net st
  | OpUpdateCustomRate f t rate => updateCustomRate f t rate st
  end.

Definition run (ops : list Operation) (st : RatesPage) : RatesPage :=
  fold_left step ops st.

(** The page as the script leaves it at start: the literal table and
    the pair rows [rows] of the document. *)
Definition initialPage (rows : gmap nat PairRow) : RatesPage :=
  {| customRates := initialRates; pairs := rows |}.

(** All stored rates are strictly positive. *)
Definition ratesPositive (t : gmap string float) : Prop :=
  map_Forall (fun _ x => PrimFloat.ltb 0 x = true) t.

(** The numbers an operation brings into the table are strictly
    positive: the parsed value of [updateCustomRate], and each of the
    four rates [loadExchangeRates] takes from a response. *)
Definition consumedPositive (rates : gmap string float) : bool :=
  forallb (fun code => match rates !! code with
                       | Some x => negb (truthy x) || PrimFloat.ltb 0 x
                       | None => true
                       end)
          ["CAD"; "EUR"; "UAH"; "RUB"].

Definition inputPositive (op : Operation) : bool :=
  match op with
  | OpLoadExchangeRates (FetchResponse true (BodyData (Some rates))) =>
      consumedPositive rates
  | OpLoadExchangeRates _ => true
  | OpUpdateCustomRate _ _ rate => PrimFloat.ltb 0 rate
  end.

(** The table of the specification's scenario. *)
Definition scenarioRates : gmap string float :=
  <["USD" := 1]> (<["CAD" := 1.35]> ∅).

(** A response that carries the Canadian dollar only. *)
Definition partialResponse : FetchOutcome :=
  FetchResponse true (BodyData (Some {[ "CAD" := 1.4 ]})).

(** The inputs of a converter form: [parseFloat] of the amount field and
    the values of the two selects. *)
Record ConverterForm := mkConverterForm {
  form_amount : float;
  form_from : string;
  form_to : string
}.

Definition invalidAmountText : string := "Введите корректную сумму".
Definition rateNotFoundText : string := "Курс не найден".
Definition conversionErrorText : string := "Ошибка конвертации".

(** [convertCurrencyAmount()] of the main script: the text written into
    the result element; [None] when one of the four elements is missing
    ([form = None]) and nothing is written.  The table is read by its own
    entries, which is the lookup of the script for every currency code
    that is not the name of a member every object inherits. *)
Definition convertCurrencyAmount (t : gmap string float)
    (form : option ConverterForm) : option string :=
  match form with
  | None => None
  | Some f =>
      let amount := form_amount f in
      let fromCurrency := form_from f in
      let toCurrency := form_to f in
      if PrimFloat.is_nan amount || PrimFloat.leb amount 0 then
        Some invalidAmountText
      else if String.eqb fromCurrency toCurrency then
        Some (getCurrencySymbol toCurrency +:+ toFixed amount 2)
      else if falsy (t !! fromCurrency) || falsy (t !! toCurrency) then
        Some rateNotFoundText
      else
        let usdAmount := amount / toNumber (t !! fromCurrency) in
        let convertedAmount := usdAmount * toNumber (t !! toCurrency) in
        if PrimFloat.is_nan convertedAmount then Some conversionErrorText
        else Some (getCurrencySymbol toCurrency +:+ toFixed convertedAmount 2)
  end.

(** [convertCurrencyAmount()] of [static/plaid_app.js]. *)
Definition convertCurrencyAmount_plaid (t : gmap string float)
    (form : option ConverterForm) : option string :=
  match form with
  | None => None
  | Some f =>
      let amount := if truthy (form_amount f) then form_amount f else 0 in
      let from := form_from f in
      let to := form_to f in
      if String.eqb from to then Some ("$" +:+ toFixed amount 2)
      else if negb (falsy (t !! from)) && negb (falsy (t !! to)) then
        let convertedAmount :=
          (amount * toNumber (t !! to)) / toNumber (t !! from) in
        Some ("$" +:+ toFixed convertedAmount 2)
      else Some rateNotFoundText
  end.

End Rates.

(** ** Navigation around the router: start, home, page restore *)

Module Navigation.
Import JSString Router Page.

(** What [showTab] does to one element in its first two statements. *)
Definition deactivated (e : Element) : Element :=
  let e1 := if hasClass "tab-content" e then removeActive e else e in
  if hasClass "tab" e1 then removeActive e1 else e1.

(** The document [showTab(tabName)] leaves when it returns, read in one
    pass over the elements: each one is deactivated; the first one whose
    id is [tabName] is marked while [needPanel] holds, and the first one
    whose [onclick] shows the tab while [needButton] holds. *)
Fixpoint activation (tabName : string) (needPanel needButton : bool)
    (doc : list Element) : list Element :=
  match doc with
  | [] => []
  | e :: rest =>
      let hitPanel := needPanel && hasId tabName e in
      let hitButton := needButton && onclickShows tabName e in
      let e1 := deactivated e in
      let e2 := if hitPanel then addActive e1 else e1 in
      let e3 := if hitButton then addActive e2 else e2 in
      e3 :: activation tabName (needPanel && negb hitPanel)
                       (needButton && negb hitButton) rest
  end.

(** [new URLRouter()] at the end of the script: the constructor detects
    the base path, [init] installs the listener and handles the current
    path, then the global [router] is bound. *)
Definition startRouter (pathname : string) (w : World) : World :=
  let r := newURLRouter pathname in
  let w1 := handleRoute r pathname w in
  {| document := document w1; history := history w1; router := Some r;
     timers := timers w1; started := started w1 |}.

(** The pending callbacks run, in the order they were set. *)
Definition runDue (w : World) : World :=
  runTimers (timers w)
    {| document := document w; history := history w; router := router w;
       timers := []; started := started w |}.


(** [goHome()]: what is left in [localStorage], and the path assigned to
    [window.location.href]. *)
Definition goHome (pathname : string) (storage : gmap string string)
    : gmap string string * string :=
  (delete "currentPage" storage,
   if includes pathname "/budget-manager-cloud/"
   then "/budget-manager-cloud/" else "/").

(** The function the script runs first when a page loads: the path it
    redirects to, if any. *)
Definition restorePage (storage : gmap string string) (pathname : string)
    : option string :=
  match storage !! "currentPage" with
  | Some currentPage =>
      if String.eqb currentPage "plaid_management" && String.eqb pathname "/"
      then Some "/plaid_management.html" else None
  | None => None
  end.

End Navigation.

(** ** The rates panel of [static/plaid_app.js] *)

Module PlaidPage.
Import JSNumber Rates.
Local Open Scope float_scope.

(** [customRates[k]] where [plaid_app.js] uses it as a condition.  An own
    entry counts by its number; a name without own entry that every
    object inherits ([constructor], [toString], ...) yields a function,
    or the prototype itself for [__proto__], which counts as true. *)
Definition truthyMember (t : gmap string float) (k : string) : bool :=
  match t !! k with
  | Some x => truthy x
  | None => Router.inheritedMember k
  end.

(** The text [updateCurrencyPair] of [plaid_app.js] writes into the rate
    cell.  As an operand of [/], a member that is no number (undefined,
    a function, the prototype) is [NaN], as [toNumber] has it. *)
Definition pairRateText (t : gmap string float) (fromCurrency toCurrency : string)
    : string :=
  if truthyMember t fromCurrency && truthyMember t toCurrency then
    let rate := toNumber (t !! toCurrency) / toNumber (t !! fromCurrency) in
    toFixed rate 4
  else "N/A".

Definition updateCurrencyPair (pairNumber : nat) (st : RatesPage) : RatesPage :=
  match pairs st !! pairNumber with
  | None => st
  | Some row =>
      let text := pairRateText (customRates st) (pair_from row) (pair_to row) in
      {| customRates := customRates st;
         pairs := <[pairNumber :=
                      {| pair_from := pair_from row; pair_to := pair_to row;
                         pair_rate := text |}]> (pairs st) |}
  end.

Definition updateRatesUI (st : RatesPage) : RatesPage :=
  fold_left (fun s i => updateCurrencyPair i s) [1; 2; 3; 4]%nat st.

(** What [data.rates] is once the body is parsed.  [plaid_app.js] reads
    [data.rates.CAD] without testing [data.rates] first, so it tells
    apart what the main script does not: reading a member of [undefined]
    or [null] throws, reading one of [0], [NaN], [''] or [false] gives
    [undefined]. *)
Inductive RatesMember :=
| RatesNullish
| RatesFalsy
| RatesObject (rates : gmap string float).

Inductive PlaidBody :=
| PlaidUnparsable
| PlaidData (rates : RatesMember).

Inductive PlaidOutcome :=
| PlaidRejected
| PlaidResponse (ok : bool) (body : PlaidBody).

(** The same outcome as the main script takes it: its test [!rates]
    puts the falsy values with the missing ones. *)
Definition seenByMain (net : PlaidOutcome) : FetchOutcome :=
  match net with
  | PlaidRejected => FetchRejected
  | PlaidResponse ok PlaidUnparsable => FetchResponse ok BodyUnparsable
  | PlaidResponse ok (PlaidData (RatesObject rates)) =>
      FetchResponse ok (BodyData (Some rates))
  | PlaidResponse ok (PlaidData _) => FetchResponse ok (BodyData None)
  end.

(** The members the assignments of the [try] block read; [None] when
    the block throws before the first assignment. *)
Definition membersRead (net : PlaidOutcome) : option (gmap string float) :=
  match net with
  | PlaidResponse true (PlaidData RatesFalsy) => Some ∅
  | PlaidResponse true (PlaidData (RatesObject rates)) => Some rates
  | _ => None
  end.

(** [loadExchangeRates()] of [plaid_app.js]: the [catch] block only
    logs. *)
Definition loadExchangeRates (net : PlaidOutcome) (st : RatesPage) : RatesPage :=
  match membersRead net with
  | Some rates =>
      updateRatesUI
        {| customRates := applyRates rates (customRates st);
           pairs := pairs st |}
  | None => st
  end.

(** A rates panel of four rows none of whose rate cells has been
    written yet. *)
Definition freshPanel (t : gmap string float) : RatesPage :=
  {| customRates := t;
     pairs := <[1%nat := mkPairRow "CAD" "USD" "-"]>
                (<[2%nat := mkPairRow "USD" "EUR" "-"]>
                   (<[3%nat := mkPairRow "USD" "UAH" "-"]>
                      (<[4%nat := mkPairRow "GBP" "GBP" "-"]> ∅))) |}.

End PlaidPage.

(** ** The balance converters of the assets panel *)

Module Balances.
Import JSNumber Rates.
Local Open Scope float_scope.

Definition dquote : string := String "034"%char EmptyString.

(** [getCurrencyOptions(originalCurrency)]: the codes offered, and the
    markup made of them. *)
Definition allCurrencies : list string := ["USD"; "EUR"; "CAD"; "UAH"; "RUB"].

Definition offeredCurrencies (originalCurrency : string) : list string :=
  List.filter (fun currency => negb (String.eqb currency originalCurrency))
              allCurrencies.

Definition optionTag (currency : string) : string :=
  "<option value=" +:+ dquote +:+ currency +:+ dquote +:+ ">"
  +:+ currency +:+ "</option>".

Definition getCurrencyOptions (originalCurrency : string) : string :=
  String.concat "" (map optionTag (offeredCurrencies originalCurrency)).

(** What the converters read off a balance cell: its text, the number
    [parseFloat] finds in the text once everything but digits, dots and
    minus signs is removed, and the first run of three capital letters in
    it, if any. *)
Record BalanceCell := mkBalanceCell {
  cell_text : string;
  cell_balance : float;
  cell_code : option string
}.

Definition notAvailableText : string := "N/A".

(** [convertAccountCurrency(regionId, bankId, accountId, targetCurrency)]:
    the text written into the converted-balance element, [None] when
    nothing is written; [cell] is [None] when that element is missing. *)
Definition convertAccountCurrency (t : gmap string float)
    (cell : option BalanceCell) (targetCurrency : string) : option string :=
  match cell with
  | None => None
  | Some c =>
      if negb (JSString.truthy targetCurrency) then Some (cell_text c)
      else
        let balance := cell_balance c in
        if PrimFloat.is_nan balance then None
        else
          let originalCurrency :=
            match cell_code c with Some code => code | None => "CAD" end in
          if falsy (t !! originalCurrency) || falsy (t !! targetCurrency) then
            Some notAvailableText
          else
            let usdAmount := balance / toNumber (t !! originalCurrency) in
            let convertedAmount := usdAmount * toNumber (t !! targetCurrency) in
            if PrimFloat.is_nan convertedAmount then Some notAvailableText
            else
              let currencySymbol :=
                if String.eqb targetCurrency "UAH" then "₴"
                else if String.eqb targetCurrency "EUR" then "€" else "$" in
              Some (currencySymbol +:+ toFixed convertedAmount 2)
  end.

(** [convertCurrency(regionId, targetCurrency)], the older converter of a
    whole region; [balance] is [None] when one of its two elements is
    missing, else the number read off the balance element. *)
Definition regionCurrency (regionId : string) : string :=
  if String.eqb regionId "canada" then "CAD"
  else if String.eqb regionId "ukraine" then "UAH"
  else "USD".

Definition convertCurrency (t : gmap string float) (regionId : string)
    (balance : option float) (targetCurrency : string) : option string :=
  match balance with
  | None => None
  | Some balance =>
      if PrimFloat.is_nan balance then None
      else
        let sourceCurrency := regionCurrency regionId in
        if falsy (t !! sourceCurrency) || falsy (t !! targetCurrency) then
          Some notAvailableText
        else
          let usdAmount := balance / toNumber (t !! sourceCurrency) in
          let convertedAmount := usdAmount * toNumber (t !! targetCurrency) in
          if PrimFloat.is_nan convertedAmount then Some notAvailableText
          else
            let currencySymbol :=
              if String.eqb targetCurrency "UAH" then "₴"
              else if String.eqb targetCurrency "EUR" then "€"
              else if String.eqb targetCurrency "RUB" then "₽" else "$" in
            Some (currencySymbol +:+ toFixed convertedAmount 2)
  end.

End Balances.

(** ** Assets by region ([loadAssets]) *)

Module Assets.
Import JSString JSNumber.
Local Open Scope float_scope.

(** An entry of the bank status list the backend returns. *)
Record BankStatus := mkBankStatus {
  bank_name : string;
  bank_code : string
}.

(** An account of the demonstration data; [acc_balance] is the number
    [parseFloat] reads off the balance literal. *)
Record Account := mkAccount {
  acc_id : string;
  acc_name : string;
  acc_balance : float;
  acc_currency : string
}.

Record BankInfo := mkBankInfo {
  info_id : string;
  info_name : string;
  info_accounts : list Account;
  info_total : float
}.

Record Region := mkRegion {
  region_banks : list BankInfo;
  region_total : float
}.

Record Regions := mkRegions {
  canada : Region;
  ukraine : Region;
  other : Region;
  investments : Region
}.

Inductive RegionId := Canada | Ukraine | Other | Investments.

Definition emptyRegion : Region := {| region_banks := []; region_total := 0 |}.

Definition emptyRegions : Regions :=
  {| canada := emptyRegion; ukraine := emptyRegion;
     other := emptyRegion; investments := emptyRegion |}.

(** The demonstration accounts attached to a bank by its code. *)
Definition testAccounts (code : string) : list Account :=
  if String.eqb code "RBC" then
    [ mkAccount "1" "RBC Advantage Banking" 119.14 "CAD";
      mkAccount "2" "RBC ION Visa" 60.42 "CAD";
      mkAccount "3" "RBC U.S. High Interest eSavings" 100.82 "USD";
      mkAccount "4" "RBC High Interest eSavings" 3004.68 "CAD";
      mkAccount "5" "RBC Advantage Banking" 1477.60 "CAD" ]
  else if String.eqb code "BMO" then
    [ mkAccount "6" "MasterCard" 7500.00 "CAD";
      mkAccount "7" "Chequing" 100.00 "CAD" ]
  else [].

(** [accounts.reduce((sum, account) => sum + (parseFloat(account.balance) || 0), 0)] *)
Definition totalOf (accounts : list Account) : float :=
  fold_left (fun sum account =>
               sum + (if truthy (acc_balance account)
                      then acc_balance account else 0))
            accounts 0.

Definition bankInfoOf (bank : BankStatus) : BankInfo :=
  let accounts := testAccounts (bank_code bank) in
  {| info_id := bank_code bank; info_name := bank_name bank;
     info_accounts := accounts; info_total := totalOf accounts |}.

(** The chain of [bank.name.includes(...)] tests, in its order. *)
Definition regionOf (name : string) : RegionId :=
  if includes name "Royal Bank of Canada" || includes name "RBC"
     || includes name "Bank of Montreal" || includes name "BMO"
     || includes name "Walmart Rewards" || includes name "WALMART"
     || includes name "Canadian Imperial Bank of Commerce"
     || includes name "CIBC"
  then Canada
  else if includes name "PrivatBank" || includes name "Monobank"
          || includes name "Raiffeisen" || includes name "PUMB"
  then Ukraine
  else if includes name "Interactive Brokers" || includes name "Investment"
  then Investments
  else Other.

(** [region.banks.push(bankInfo); region.totalBalance += bankInfo.totalBalance] *)
Definition pushBank (info : BankInfo) (r : Region) : Region :=
  {| region_banks := region_banks r ++ [info];
     region_total := region_total r + info_total info |}.

(** One turn of the [for (const bank of banksData)] loop. *)
Definition addBank (regions : Regions) (bank : BankStatus) : Regions :=
  let info := bankInfoOf bank in
  match regionOf (bank_name bank) with
  | Canada =>
      {| canada := pushBank info (canada regions); ukraine := ukraine regions;
         other := other regions; investments := investments regions |}
  | Ukraine =>
      {| canada := canada regions; ukraine := pushBank info (ukraine regions);
         other := other regions; investments := investments regions |}
  | Investments =>
      {| canada := canada regions; ukraine := ukraine regions;
         other := other regions;
         investments := pushBank info (investments regions) |}
  | Other =>
      {| canada := canada regions; ukraine := ukraine regions;
         other := pushBank info (other regions);
         investments := investments regions |}
  end.

Definition groupBanks (banksData : list BankStatus) : Regions :=
  fold_left addBank banksData emptyRegions.

Definition regionAt (id : RegionId) (regions : Regions) : Region :=
  match id with
  | Canada => canada regions
  | Ukraine => ukraine regions
  | Other => other regions
  | Investments => investments regions
  end.

Definition sameRegion (a b : RegionId) : bool :=
  match a, b with
  | Canada, Canada | Ukraine, Ukraine | Other, Other
  | Investments, Investments => true
  | _, _ => false
  end.

(** The guard against overlapping loads.  [loading] is the flag
    [assetsLoading]; [inFlight] counts the bodies of [loadAssets] that have
    passed the guard and not yet reached their [finally] block. *)
Record LoadState := mkLoadState {
  loading : bool;
  inFlight : nat
}.

Inductive LoadEvent :=
| CallLoadAssets      (* [loadAssets()] is called *)
| SettleLoadAssets.   (* a body in flight reaches [finally] *)

Definition loadStep (st : LoadState) (ev : LoadEvent) : option LoadState :=
  match ev with
  | CallLoadAssets =>
      if loading st then Some st
      else Some {| loading := true; inFlight := S (inFlight st) |}
  | SettleLoadAssets =>
      match inFlight st with
      | O => None
      | S n => Some {| loading := false; inFlight := n |}
      end
  end.

Fixpoint loadRun (st : LoadState) (evs : list LoadEvent) : option LoadState :=
  match evs with
  | [] => Some st
  | ev :: rest =>
      match loadStep st ev with
      | Some st' => loadRun st' rest
      | None => None
      end
  end.

Definition idle : LoadState := {| loading := false; inFlight := 0 |}.

End Assets.

(** ** The bank management methods ([showApiManagement] and its siblings) *)

Module Management.
Import JSString.

(** The part of an element these functions read or write: its id, its
    classes and [style.display] (empty while unset). *)
Record Block := mkBlock {
  blk_id : option string;
  blk_class : list string;
  blk_display : string
}.

Inductive outcome :=
| Shown (doc : list Block)
| Failed (doc : list Block).   (* a [TypeError] on a missing element *)

Definition doc_of (o : outcome) : list Block :=
  match o with Shown d | Failed d => d end.

Definition isShown (o : outcome) : bool :=
  match o with Shown _ => true | Failed _ => false end.

Definition hasClass (c : string) (e : Block) : bool :=
  existsb (String.eqb c) (blk_class e).

Definition hasId (id : string) (e : Block) : bool :=
  match blk_id e with
  | Some i => truthy i && String.eqb i id
  | None => false
  end.

Definition removeActive (e : Block) : Block :=
  {| blk_id := blk_id e;
     blk_class := List.filter (fun c => negb (String.eqb c "active")) (blk_class e);
     blk_display := blk_display e |}.

Definition addActive (e : Block) : Block :=
  if hasClass "active" e then e
  else {| blk_id := blk_id e; blk_class := blk_class e ++ ["active"];
          blk_display := blk_display e |}.

Definition setDisplay (value : string) (e : Block) : Block :=
  {| blk_id := blk_id e; blk_class := blk_class e; blk_display := value |}.

Fixpoint updateFirst (p : Block -> bool) (f : Block -> Block)
    (doc : list Block) : option (list Block) :=
  match doc with
  | [] => None
  | e :: rest =>
      if p e then Some (f e :: rest)
      else option_map (cons e) (updateFirst p f rest)
  end.

(** The four statements the three functions share, for the card
    [method] and the content block [content]. *)
Definition switchTo (method content : string) (doc : list Block) : outcome :=
  let doc := map (fun e => if hasClass "method-card" e
                           then removeActive e else e) doc in
  match updateFirst (hasId method) addActive doc with
  | None => Failed doc
  | Some doc =>
      let doc := map (fun e => if hasClass "management-content" e
                               then setDisplay "none" e else e) doc in
      match updateFirst (hasId content) (setDisplay "block") doc with
      | None => Failed doc
      | Some doc => Shown doc
      end
  end.

Definition showApiManagement : list Block -> outcome :=
  switchTo "api-method" "api-management".

Definition showScrapingManagement : list Block -> outcome :=
  switchTo "scraping-method" "scraping-management".

Definition showManualManagement : list Block -> outcome :=
  switchTo "manual-method" "manual-management".

(** Every content block is hidden, but the one with id [content]. *)
Definition onlyShown (content : string) (doc : list Block) : bool :=
  forallb (fun e => negb (hasClass "management-content" e)
                    || hasId content e
                    || String.eqb (blk_display e) "none") doc.

(** No card is active, but the one with id [method]. *)
Definition onlyActive (method : string) (doc : list Block) : bool :=
  forallb (fun e => negb (hasClass "method-card" e && hasClass "active" e)
                    || hasId method e) doc.

(** A page with the three cards and the three content blocks, the API
    method showing. *)
Definition sampleMethods : list Block :=
  [ mkBlock (Some "api-method") ["method-card"; "active"] "";
    mkBlock (Some "scraping-method") ["method-card"] "";
    mkBlock (Some "manual-method") ["method-card"] "";
    mkBlock (Some "api-management") ["management-content"] "block";
    mkBlock (Some "scraping-management") ["management-content"] "none";
    mkBlock (Some "manual-management") ["management-content"] "none" ].

End Management.

(** * Properties *)

(** ** Router: resolution and the route table *)

Module RouterFacts.
Import JSString Router.

Lemma eqb_append_l (b s1 s2 : string) :
  String.eqb (b +:+ s1) (b +:+ s2) = String.eqb s1 s2.
Proof.
  induction b as [|c b IH]; simpl; [reflexivity|].
  rewrite Ascii.eqb_refl. exact IH.
Qed.

Lemma prefix_append_l (b s1 s2 : string) :
  String.prefix (b +:+ s1) (b +:+ s2) = String.prefix s1 s2.
Proof.
  induction b as [|c b IH]; simpl; [reflexivity|].
  destruct (ascii_dec c c) as [_|Hne]; [exact IH | congruence].
Qed.

Lemma prefix_append_inv (x y s : string) :
  String.prefix (x +:+ y) s = true -> String.prefix x s = true.
Proof.
  revert s. induction x as [|c x IH]; intros [|d s] H; simpl in *;
    try reflexivity; try discriminate.
  destruct (ascii_dec c d); [auto | discriminate].
Qed.

Lemma truthy_append (b : string) (c : ascii) (s : string) :
  truthy (b +:+ String c s) = true.
Proof. destruct b; reflexivity. Qed.

Lemma prefix_extension_inv (b y z s : string) :
  String.prefix (b +:+ (y +:+ z)) s = true -> String.prefix (b +:+ y) s = true.
Proof.
  revert s. induction b as [|c b IH]; intros s H.
  - exact (prefix_append_inv y z s H).
  - destruct s as [|d s]; simpl in *; [discriminate|].
    destruct (ascii_dec c d); [auto | discriminate].
Qed.

(** Below the root route nothing else can match: every registered route
    extends the root route. *)
Lemma root_miss (b path rest : string) :
  startsWith path (b +:+ "/") = false ->
  startsWith path (b +:+ String "/" rest) = false.
Proof.
  unfold startsWith. intros Hroot.
  destruct (String.prefix (b +:+ String "/" rest) path) eqn:E; [|reflexivity].
  apply (prefix_extension_inv b "/" rest path) in E. congruence.
Qed.

Lemma firstPrefixMatch_routes (b path : string) :
  firstPrefixMatch (routesFor b) path =
  if startsWith path (b +:+ "/") then Some "dashboard" else None.
Proof.
  unfold routesFor. simpl.
  destruct (startsWith path (b +:+ "/")) eqn:Hroot; [reflexivity|].
  now rewrite !(root_miss _ _ _ Hroot).
Qed.

(** An exact hit is one of the four registered views, all truthy. *)
Lemma obj_get_routes_truthy (b path t : string) :
  obj_get (routesFor b) path = Some t -> truthy t = true.
Proof.
  unfold routesFor, obj_get.
  destruct (String.eqb (b +:+ "/") path); [intros [= <-]; reflexivity|].
  destruct (String.eqb (b +:+ "/banks") path); [intros [= <-]; reflexivity|].
  destruct (String.eqb (b +:+ "/transactions") path);
    [intros [= <-]; reflexivity|].
  destruct (String.eqb (b +:+ "/advisor") path); [intros [= <-]; reflexivity|].
  discriminate.
Qed.

Lemma resolve_routerAt (b path : string) :
  resolve (routerAt b) path =
  match obj_get (routesFor b) path with
  | Some t => t
  | None => "dashboard"
  end.
Proof.
  unfold resolve, routerAt. simpl routes.
  destruct (obj_get (routesFor b) path) as [t|] eqn:E.
  - pose proof (obj_get_routes_truthy _ _ _ E) as Ht.
    unfold falsy. rewrite Ht. simpl. now rewrite Ht.
  - simpl falsy. cbv iota. rewrite firstPrefixMatch_routes.
    now destruct (startsWith path (b +:+ "/")).
Qed.

Lemma resolve_view_cases (b path : string) :
  let t := resolve (routerAt b) path in
  t = "dashboard" \/ t = "banks" \/ t = "transactions" \/ t = "advisor".
Proof.
  cbv zeta. rewrite resolve_routerAt. unfold routesFor, obj_get.
  destruct (String.eqb (b +:+ "/") path); [tauto|].
  destruct (String.eqb (b +:+ "/banks") path); [tauto|].
  destruct (String.eqb (b +:+ "/transactions") path); [tauto|].
  destruct (String.eqb (b +:+ "/advisor") path); tauto.
Qed.

Lemma obj_get_registered (b : string) :
  obj_get (routesFor b) (b +:+ "/") = Some "dashboard" /\
  obj_get (routesFor b) (b +:+ "/banks") = Some "banks" /\
  obj_get (routesFor b) (b +:+ "/transactions") = Some "transactions" /\
  obj_get (routesFor b) (b +:+ "/advisor") = Some "advisor".
Proof.
  unfold routesFor, obj_get. rewrite !eqb_append_l. simpl. tauto.
Qed.

Lemma resolveValue_routerAt (b path : string) :
  resolveValue (routerAt b) path =
  match obj_get (routesFor b) path with
  | Some t => JString t
  | None =>
      if inheritedMember path then JInherited path
      else JString match firstPrefixMatch (routesFor b) path with
                   | Some t => t
                   | None => "dashboard"
                   end
  end.
Proof.
  unfold resolveValue, obj_member, routerAt. simpl routes.
  destruct (obj_get (routesFor b) path) as [t|] eqn:E.
  - pose proof (obj_get_routes_truthy _ _ _ E) as Ht.
    simpl. rewrite Ht. simpl. now rewrite Ht.
  - destruct (inheritedMember path); [reflexivity|].
    cbn [falsyValue]. rewrite firstPrefixMatch_routes.
    now destruct (startsWith path (b +:+ "/")).
Qed.

(** For a string that names no inherited member, the value [handleRoute]
    computes is the view name [resolve] gives. *)
Lemma resolveValue_resolve (b path : string) :
  inheritedMember path = false ->
  resolveValue (routerAt b) path = JString (resolve (routerAt b) path).
Proof.
  intros H. rewrite resolveValue_routerAt, resolve_routerAt, H.
  destruct (obj_get (routesFor b) path); [reflexivity|].
  rewrite firstPrefixMatch_routes.
  now destruct (startsWith path (b +:+ "/")).
Qed.

(** A location path names no inherited member: for it [handleRoute]
    computes the view name [resolve] gives. *)
Lemma pathname_not_inherited (path : string) :
  isPathname path = true -> inheritedMember path = false.
Proof.
  unfold isPathname, startsWith.
  destruct path as [|c rest]; cbn [String.prefix]; [discriminate|].
  destruct (ascii_dec "/" c) as [<-|]; [|discriminate].
  intros _. reflexivity.
Qed.

Lemma pathname_resolveValue (pathname path : string) :
  isPathname path = true ->
  resolveValue (newURLRouter pathname) path
    = JString (resolve (newURLRouter pathname) path).
Proof.
  intros H. unfold newURLRouter.
  exact (resolveValue_resolve _ _ (pathname_not_inherited _ H)).
Qed.



(** C8, as stated, fails: started below [/app] the router detects the
    empty base path, and [/app/banks] is not the banks view. *)
Lemma subpath_app_not_detected :
  basePath (newURLRouter "/app/banks") = "" /\
  resolve (newURLRouter "/app/banks") "/app/banks" = "dashboard".
Proof. split; reflexivity. Qed.

(** C8 (amended): the base path is one of two fixed values,
    [/budget-manager-cloud] when the path at startup contains
    [/budget-manager-cloud/] and the empty one otherwise; the four
    routes resolve to their views under the base path so chosen.  For
    every startup path that does not contain [/budget-manager-cloud/],
    such as one below [/app], the router runs with the empty base path,
    and [/banks] resolves to ["banks"]; when the startup path contains
    it, also below [/app], the base path is [/budget-manager-cloud] and
    [/banks] resolves to the default view.  [/app/unknown] resolves to
    the default view ["dashboard"] for every startup path. *)
Theorem basePath_detection (pathname : string) :
  let r := newURLRouter pathname in
  basePath r =
    (if includes pathname "/budget-manager-cloud/"
     then "/budget-manager-cloud" else "")
  /\ (resolve r (basePath r +:+ "/") = "dashboard"
      /\ resolve r (basePath r +:+ "/banks") = "banks"
      /\ resolve r (basePath r +:+ "/transactions") = "transactions"
      /\ resolve r (basePath r +:+ "/advisor") = "advisor")
  /\ (resolve r "/banks" =
        (if includes pathname "/budget-manager-cloud/"
         then "dashboard" else "banks")
      /\ resolve r "/app/unknown" = "dashboard")
  /\ (basePath (newURLRouter "/app/") = ""
      /\ resolve (newURLRouter "/app/") "/banks" = "banks"
      /\ resolve (newURLRouter "/app/") "/app/unknown" = "dashboard")
  /\ (basePath (newURLRouter "/budget-manager-cloud/") = "/budget-manager-cloud"
      /\ resolve (newURLRouter "/budget-manager-cloud/")
           "/budget-manager-cloud/banks" = "banks").
Proof.
  intros r. subst r. unfold newURLRouter.
  split; [reflexivity|]. split; [|split].
  - set (b := detectBasePath pathname).
    simpl basePath. rewrite !resolve_routerAt.
    destruct (obj_get_registered b) as (-> & -> & -> & ->). tauto.
  - unfold detectBasePath.
    destruct (includes pathname "/budget-manager-cloud/"); split; reflexivity.
  - repeat split; reflexivity.
Qed.

(** C9: every registered route round-trips: the path resolves to its
    view, and [navigateToTab] maps that view back to the same path. *)
Theorem route_round_trip (pathname path view : string) :
  let r := newURLRouter pathname in
  In (path, view) (routes r) ->
  resolve r path = view /\ navigateToTab r view = Some path.
Proof.
  intros r Hin. subst r. unfold newURLRouter in *.
  set (b := detectBasePath pathname) in *.
  rewrite resolve_routerAt.
  destruct (obj_get_registered b) as (H1 & H2 & H3 & H4).
  unfold navigateToTab, routeMap. simpl basePath.
  simpl in Hin.
  destruct Hin as [[= <- <-]|[[= <- <-]|[[= <- <-]|[[= <- <-]|[]]]]];
    rewrite ?H1, ?H2, ?H3, ?H4; simpl obj_get;
    cbv beta iota; rewrite truthy_append; split; reflexivity.
Qed.

Lemma route_round_trip_witness :
  In ("/budget-manager-cloud/transactions", "transactions")
     (routes (newURLRouter "/budget-manager-cloud/index.html"))
  /\ resolve (newURLRouter "/budget-manager-cloud/index.html")
       "/budget-manager-cloud/transactions" = "transactions"
  /\ navigateToTab (newURLRouter "/budget-manager-cloud/index.html")
       "transactions" = Some "/budget-manager-cloud/transactions".
Proof.
  assert (Hin : In ("/budget-manager-cloud/transactions", "transactions")
                  (routes (newURLRouter "/budget-manager-cloud/index.html"))).
  { vm_compute. tauto. }
  split; [exact Hin|].
  exact (route_round_trip "/budget-manager-cloud/index.html"
           "/budget-manager-cloud/transactions" "transactions" Hin).
Defined.

End RouterFacts.

(** ** Page: activation, exceptions and history *)

Module PageFacts.
Import JSString Router Page RouterFacts.

Lemma hasId_deactivateAll (id cls : string) (doc : list Element) :
  existsb (hasId id) (deactivateAll cls doc) = existsb (hasId id) doc.
Proof.
  induction doc as [|e doc IH]; simpl; [reflexivity|].
  rewrite IH. f_equal. now destruct (hasClass cls e).
Qed.

Lemma updateFirst_none (p : Element -> bool) (f : Element -> Element)
    (doc : list Element) :
  existsb p doc = false -> updateFirst p f doc = None.
Proof.
  induction doc as [|e doc IH]; simpl; [reflexivity|].
  destruct (p e); simpl; [discriminate|].
  intros H. now rewrite (IH H).
Qed.

Lemma updateFirst_some (p : Element -> bool) (f : Element -> Element)
    (doc : list Element) :
  existsb p doc = true -> exists doc', updateFirst p f doc = Some doc'.
Proof.
  induction doc as [|e doc IH]; simpl; [discriminate|].
  destruct (p e); simpl; [eauto|].
  intros H. destruct (IH H) as [d ->]. simpl. eauto.
Qed.

Lemma hasClass_removeActive (c : string) (e : Element) :
  hasClass c (removeActive e) =
  if String.eqb c "active" then false else hasClass c e.
Proof.
  unfold hasClass, removeActive. simpl.
  induction (el_class e) as [|x cs IH]; simpl.
  - now destruct (String.eqb c "active").
  - destruct (String.eqb x "active") eqn:Hx; simpl.
    + rewrite IH. apply String.eqb_eq in Hx. subst x.
      now destruct (String.eqb c "active").
    + rewrite IH. destruct (String.eqb c "active") eqn:Hc;
        [|reflexivity].
      apply String.eqb_eq in Hc. subst c.
      now rewrite String.eqb_sym, Hx.
Qed.



Lemma showTab_history (tabName : string) (w : World) :
  history (world_of (showTab tabName w)) =
  (history w ++
   (if existsb (hasId tabName) (document w)
    then pushedBy (router w) tabName else []))%list.
Proof.
  unfold showTab.
  destruct (existsb (hasId tabName) (document w)) eqn:E;
    rewrite <- (hasId_deactivateAll tabName "tab-content") in E;
    rewrite <- (hasId_deactivateAll tabName "tab") in E.
  - destruct (updateFirst_some _ addActive _ E) as [d ->].
    now destruct (loadersFor tabName).
  - rewrite (updateFirst_none _ addActive _ E). simpl.
    now rewrite app_nil_r.
Qed.

Lemma pushedBy_registered (b tab : string) :
  tab = "dashboard" \/ tab = "banks" \/ tab = "transactions" \/ tab = "advisor" ->
  pushedBy (Some (routerAt b)) tab =
  if String.eqb tab "dashboard" then [] else [b +:+ "/" +:+ tab].
Proof.
  intros [-> | [-> | [-> | ->]]]; unfold pushedBy, navigateToTab, routeMap;
    simpl; rewrite ?truthy_append; reflexivity.
Qed.

(** C2: the code breaks the claim.  Going back to [/banks] makes the
    deferred [showTab('banks')] call [router.navigateToTab], which pushes
    [/banks] on top of the entry just reached; going back to the root
    pushes nothing, as [showTab] guards the dashboard against the
    router. *)
Lemma popstate_pushes_history :
  history samplePage = []
  /\ history (popstate "/banks" samplePage) = ["/banks"]
  /\ history (popstate "/" samplePage) = [].
Proof. repeat split; reflexivity. Qed.




End PageFacts.

(** ** Rates: the table, its writers and the converters *)

Module RatesFacts.
Import JSNumber Rates.
Local Open Scope float_scope.

Lemma updateCurrencyPair_rates (i : nat) (st : RatesPage) :
  customRates (updateCurrencyPair i st) = customRates st.
Proof. unfold updateCurrencyPair. now destruct (pairs st !! i). Qed.

Lemma updateRatesUI_rates (st : RatesPage) :
  customRates (updateRatesUI st) = customRates st.
Proof. unfold updateRatesUI. simpl. now rewrite !updateCurrencyPair_rates. Qed.

Ltac kept_or_taken :=
  simpl;
  match goal with
  | |- context [falsy ?v] => destruct (falsy v); simpl
  end;
  [rewrite lookup_insert_ne by discriminate|]; reflexivity.

Lemma lookup_mergeRate (rates t : gmap string float) (code k : string) :
  mergeRate rates code t !! k =
  if String.eqb k code && negb (falsy (rates !! code))
  then rates !! code else t !! k.
Proof.
  unfold mergeRate, falsy.
  destruct (String.eqb_spec k code) as [->|Hne]; simpl.
  - destruct (rates !! code) as [x|]; [|reflexivity].
    destruct (truthy x); simpl; [apply lookup_insert_eq | reflexivity].
  - destruct (rates !! code) as [x|]; [|reflexivity].
    destruct (truthy x); [|reflexivity].
    apply lookup_insert_ne. congruence.
Qed.

(** After a response with rates: USD is 1, each of the four codes takes
    the rate of the response when it is present and truthy and keeps
    its previous value otherwise, every other entry is kept. *)
Lemma lookup_applyRates (rates t : gmap string float) (k : string) :
  applyRates rates t !! k =
  if String.eqb k "USD" then Some 1
  else if (String.eqb k "CAD" || String.eqb k "EUR"
           || String.eqb k "UAH" || String.eqb k "RUB")
          && negb (falsy (rates !! k))
  then rates !! k
  else t !! k.
Proof.
  unfold applyRates. rewrite !lookup_mergeRate.
  destruct (String.eqb_spec k "USD") as [->|HU];
    [simpl; apply lookup_insert_eq|].
  destruct (String.eqb_spec k "RUB") as [->|HR]; [kept_or_taken|].
  destruct (String.eqb_spec k "UAH") as [->|HA]; [kept_or_taken|].
  destruct (String.eqb_spec k "EUR") as [->|HE]; [kept_or_taken|].
  destruct (String.eqb_spec k "CAD") as [->|HC]; [kept_or_taken|].
  simpl. apply lookup_insert_ne. congruence.
Qed.

(** C1, as stated, fails: a response without EUR, UAH and RUB is not a
    failure, it changes the table; and what it leaves is a merge, the
    ruble rate being the one of the table before the call. *)
Lemma loadExchangeRates_merges :
  customRates (loadExchangeRates partialResponse (initialPage ∅)) !! "CAD"
    = Some 1.4
  /\ customRates (loadExchangeRates partialResponse (initialPage ∅)) !! "RUB"
    = Some 83
  /\ customRates (loadExchangeRates partialResponse (initialPage ∅))
    <> customRates (initialPage ∅).
Proof.
  split; [vm_compute; reflexivity|]. split; [vm_compute; reflexivity|].
  intros H.
  apply (f_equal (fun m : gmap string float =>
                    match m !! "CAD" with
                    | Some x => PrimFloat.eqb x 1.35
                    | None => false
                    end)) in H.
  vm_compute in H. discriminate.
Qed.

(** C1 (amended): when the fetch is rejected, the status is not ok, the
    body cannot be parsed or it has no [rates] member,
    [loadExchangeRates] leaves every entry of the table as it was, so a
    later conversion uses the same rates.  On a response with rates it
    sets USD to 1 and overwrites each of CAD, EUR, UAH and RUB whose
    rate is present and truthy in the response; a code that is missing
    keeps its previous rate, as does every other entry: the table is
    merged entry by entry, not replaced. *)
Theorem loadExchangeRates_table (st : RatesPage) (body : Body)
    (rates : gmap string float) (code : string)
    (form : option ConverterForm) :
  Forall (fun net =>
            customRates (loadExchangeRates net st) = customRates st
            /\ convertCurrencyAmount (customRates (loadExchangeRates net st)) form
               = convertCurrencyAmount (customRates st) form)
         [ FetchRejected; FetchResponse false body;
           FetchResponse true BodyUnparsable;
           FetchResponse true (BodyData None) ]
  /\ customRates
       (loadExchangeRates (FetchResponse true (BodyData (Some rates))) st)
       !! code =
     (if String.eqb code "USD" then Some 1
      else if (String.eqb code "CAD" || String.eqb code "EUR"
               || String.eqb code "UAH" || String.eqb code "RUB")
              && negb (falsy (rates !! code))
      then rates !! code
      else customRates st !! code).
Proof.
  split.
  - repeat constructor; simpl; now rewrite updateRatesUI_rates.
  - simpl. rewrite updateRatesUI_rates. simpl. apply lookup_applyRates.
Qed.

(** C5, as stated, fails: the main script rejects a zero amount before
    it compares the currencies. *)
Lemma zero_amount_rejected :
  convertCurrencyAmount initialRates (Some (mkConverterForm 0 "USD" "USD"))
    = Some invalidAmountText
  /\ convertCurrencyAmount initialRates (Some (mkConverterForm 0 "USD" "USD"))
    <> Some (getCurrencySymbol "USD" +:+ toFixed 0 2).
Proof.
  split; [reflexivity|]. vm_compute. discriminate.
Qed.

(** C5 (amended): for every currency X and every amount that is a
    number greater than zero, the converter of the main script shows
    the amount itself, with the symbol of X and two decimals, and
    applies no rate arithmetic; it rejects zero, negative and
    non-numeric amounts with its invalid-amount message before the
    currencies are compared.  The converter of [plaid_app.js] shows the
    amount itself for every amount, zero and negative ones included
    (a non-numeric amount is read as 0). *)
Theorem same_currency_conversion (t : gmap string float) (X : string)
    (amount : float) :
  convertCurrencyAmount t (Some (mkConverterForm amount X X)) =
    Some (if PrimFloat.is_nan amount || PrimFloat.leb amount 0
          then invalidAmountText
          else getCurrencySymbol X +:+ toFixed amount 2)
  /\ convertCurrencyAmount_plaid t (Some (mkConverterForm amount X X)) =
    Some ("$" +:+ toFixed (if truthy amount then amount else 0) 2).
Proof.
  unfold convertCurrencyAmount, convertCurrencyAmount_plaid. simpl.
  rewrite String.eqb_refl.
  now destruct (PrimFloat.is_nan amount || PrimFloat.leb amount 0).
Qed.

(** C6, as stated, fails: a negative amount is rejected, not
    converted. *)
Lemma negative_amount_rejected :
  convertCurrencyAmount scenarioRates
    (Some (mkConverterForm (-100) "USD" "CAD")) = Some invalidAmountText
  /\ convertCurrencyAmount scenarioRates
       (Some (mkConverterForm (-100) "USD" "CAD"))
     <> Some (getCurrencySymbol "CAD" +:+ toFixed (-100 / 1 * 1.35) 2).
Proof.
  split; [reflexivity|]. vm_compute. discriminate.
Qed.

(** C6 (amended): for every pair of distinct currencies whose rates are
    present, nonzero and not NaN: for every amount greater than zero the
    converter of the main script computes
    [amount / rate[from] * rate[to]] and shows it with two decimals (or
    its conversion-error message should the result be NaN), and it
    rejects every other amount with the invalid-amount message; for
    every amount the converter of [plaid_app.js] computes
    [(amount * rate[to]) / rate[from]] (a non-numeric amount being read
    as 0).  With the table {USD: 1, CAD: 1.35}, both show 135.00 for 100
    USD in CAD and 100.00 for 135 CAD in USD. *)
Theorem pivot_conversion (t : gmap string float) (amount rf rt : float)
    (fromCurrency toCurrency : string) :
  String.eqb fromCurrency toCurrency = false ->
  t !! fromCurrency = Some rf ->
  t !! toCurrency = Some rt ->
  truthy rf = true ->
  truthy rt = true ->
  convertCurrencyAmount t
    (Some (mkConverterForm amount fromCurrency toCurrency)) =
  Some (if PrimFloat.is_nan amount || PrimFloat.leb amount 0
        then invalidAmountText
        else
          let convertedAmount := amount / rf * rt in
          if PrimFloat.is_nan convertedAmount then conversionErrorText
          else getCurrencySymbol toCurrency +:+ toFixed convertedAmount 2)
  /\ convertCurrencyAmount_plaid t
       (Some (mkConverterForm amount fromCurrency toCurrency)) =
     Some ("$" +:+ toFixed
             ((if truthy amount then amount else 0) * rt / rf) 2)
  /\ (convertCurrencyAmount scenarioRates
        (Some (mkConverterForm 100 "USD" "CAD")) = Some "$135.00"
      /\ convertCurrencyAmount scenarioRates
           (Some (mkConverterForm 135 "CAD" "USD")) = Some "$100.00"
      /\ convertCurrencyAmount_plaid scenarioRates
           (Some (mkConverterForm 100 "USD" "CAD")) = Some "$135.00"
      /\ convertCurrencyAmount_plaid scenarioRates
           (Some (mkConverterForm 135 "CAD" "USD")) = Some "$100.00").
Proof.
  intros Hne Hf Ht Hrf Hrt.
  unfold convertCurrencyAmount, convertCurrencyAmount_plaid. simpl.
  rewrite Hne, Hf, Ht. simpl. rewrite Hrf, Hrt. simpl.
  split; [|split; [reflexivity|]].
  - destruct (PrimFloat.is_nan amount || PrimFloat.leb amount 0);
      [reflexivity|].
    now destruct (PrimFloat.is_nan (amount / rf * rt)).
  - repeat split; vm_compute; reflexivity.
Qed.

Lemma pivot_conversion_witness :
  convertCurrencyAmount initialRates
    (Some (mkConverterForm 250 "CAD" "UAH")) = Some "₴7592.59"
  /\ convertCurrencyAmount_plaid initialRates
       (Some (mkConverterForm (-250) "CAD" "UAH")) = Some "$-7592.59".
Proof.
  pose proof (pivot_conversion initialRates 250 1.35 41 "CAD" "UAH"
                eq_refl eq_refl eq_refl eq_refl eq_refl) as [Hmain _].
  pose proof (pivot_conversion initialRates (-250) 1.35 41 "CAD" "UAH"
                eq_refl eq_refl eq_refl eq_refl eq_refl) as (_ & Hplaid & _).
  split; [exact Hmain | exact Hplaid].
Defined.

Lemma initialRates_positive : ratesPositive initialRates.
Proof.
  unfold ratesPositive, initialRates.
  repeat (apply map_Forall_insert_2; [reflexivity|]).
  apply map_Forall_empty.
Qed.

Lemma updateCustomRate_usd (f t : string) (rate : float) (st : RatesPage) :
  customRates (updateCustomRate f t rate st) !! "USD" = customRates st !! "USD".
Proof.
  unfold updateCustomRate.
  destruct (PrimFloat.is_nan rate); [reflexivity|].
  repeat match goal with
         | |- context [if ?c then _ else _] =>
             destruct c; simpl;
             [rewrite lookup_insert_ne by discriminate; reflexivity|]
         end.
  reflexivity.
Qed.

Lemma updateCustomRate_positive (f t : string) (rate : float) (st : RatesPage) :
  PrimFloat.ltb 0 rate = true ->
  ratesPositive (customRates st) ->
  ratesPositive (customRates (updateCustomRate f t rate st)).
Proof.
  intros Hrate Hst. unfold updateCustomRate.
  destruct (PrimFloat.is_nan rate); [exact Hst|].
  repeat match goal with
         | |- context [if ?c then _ else _] =>
             destruct c; simpl;
             [apply map_Forall_insert_2; assumption|]
         end.
  exact Hst.
Qed.

Lemma consumedPositive_lookup (rates : gmap string float) (k : string) (x : float) :
  consumedPositive rates = true ->
  (String.eqb k "CAD" || String.eqb k "EUR"
   || String.eqb k "UAH" || String.eqb k "RUB") = true ->
  rates !! k = Some x ->
  truthy x = true ->
  PrimFloat.ltb 0 x = true.
Proof.
  unfold consumedPositive. simpl. rewrite !andb_true_iff.
  intros (HC & HE & HA & HR & _) Hk Hx Ht.
  rewrite !orb_true_iff, !String.eqb_eq in Hk.
  destruct Hk as [[[-> | ->] | ->] | ->];
    [rewrite Hx in HC | rewrite Hx in HE | rewrite Hx in HA | rewrite Hx in HR];
    rewrite Ht in *; assumption.
Qed.

Lemma applyRates_positive (rates t : gmap string float) :
  consumedPositive rates = true ->
  ratesPositive t ->
  ratesPositive (applyRates rates t).
Proof.
  intros Hin Ht k x Hk. rewrite lookup_applyRates in Hk.
  destruct (String.eqb k "USD"); [now inversion Hk|].
  destruct (String.eqb k "CAD" || String.eqb k "EUR"
            || String.eqb k "UAH" || String.eqb k "RUB") eqn:Hcode;
    simpl in Hk; [|exact (Ht k x Hk)].
  unfold falsy in Hk. destruct (rates !! k) as [y|] eqn:Hy;
    simpl in Hk; [|exact (Ht k x Hk)].
  destruct (truthy y) eqn:Hty; simpl in Hk; [|exact (Ht k x Hk)].
  assert (y = x) by congruence. subst y.
  exact (consumedPositive_lookup rates k x Hin Hcode Hy Hty).
Qed.

Lemma step_usd (st : RatesPage) (op : Operation) :
  customRates st !! "USD" = Some 1 ->
  customRates (step st op) !! "USD" = Some 1.
Proof.
  intros H. destruct op as [net | f t rate]; simpl.
  - destruct net as [|[|] [|[rates|]]]; simpl;
      rewrite updateRatesUI_rates; try assumption.
    simpl. now rewrite lookup_applyRates.
  - now rewrite updateCustomRate_usd.
Qed.

Lemma step_positive (st : RatesPage) (op : Operation) :
  inputPositive op = true ->
  ratesPositive (customRates st) ->
  ratesPositive (customRates (step st op)).
Proof.
  intros Hop H. destruct op as [net | f t rate]; simpl.
  - destruct net as [|[|] [|[rates|]]]; simpl;
      rewrite updateRatesUI_rates; try assumption.
    simpl. now apply applyRates_positive.
  - now apply updateCustomRate_positive.
Qed.

(** C7, as stated, fails: [updateCustomRate] stores a zero typed into a
    rate field, and the table is no longer strictly positive. *)
Lemma zero_rate_stored :
  ratesPositive (customRates (initialPage ∅))
  /\ ~ ratesPositive
        (customRates (step (initialPage ∅) (OpUpdateCustomRate "CAD" "USD" 0))).
Proof.
  split; [apply initialRates_positive|].
  intros H. assert (Hz : PrimFloat.ltb 0 0 = true).
  { apply (H "CAD" 0). vm_compute. reflexivity. }
  vm_compute in Hz. discriminate.
Qed.

(** C7 (amended): in every state the page reaches from its initial
    table through [loadExchangeRates] and [updateCustomRate], the rate
    of the base currency USD is exactly 1; every stored rate is
    strictly positive as long as the numbers brought in are (each rate
    taken from a response, each value given to [updateCustomRate]).
    Neither function checks the sign: [updateCustomRate] stores every
    value that is not NaN. *)
Theorem rates_invariant (rows : gmap nat PairRow) (ops : list Operation) :
  let st := run ops (initialPage rows) in
  customRates st !! "USD" = Some 1
  /\ (forallb inputPositive ops = true -> ratesPositive (customRates st)).
Proof.
  cbv zeta. unfold run.
  assert (Hgen : forall st,
             customRates st !! "USD" = Some 1 ->
             customRates (fold_left step ops st) !! "USD" = Some 1
             /\ (forallb inputPositive ops = true ->
                 ratesPositive (customRates st) ->
                 ratesPositive (customRates (fold_left step ops st)))).
  { induction ops as [|op ops IH]; intros st Husd; simpl.
    - split; [assumption | intros _ H; exact H].
    - destruct (IH (step st op) (step_usd st op Husd)) as [IHu IHp].
      split; [exact IHu|].
      rewrite andb_true_iff. intros [Hop Hops] Hst.
      apply IHp; [exact Hops | now apply step_positive]. }
  destruct (Hgen (initialPage rows)) as [Hu Hp];
    [vm_compute; reflexivity|].
  split; [exact Hu|]. intros Hops. apply Hp; [exact Hops|].
  apply initialRates_positive.
Qed.

Lemma rates_invariant_witness :
  ratesPositive
    (customRates
       (run [OpUpdateCustomRate "USD" "EUR" 0.9;
             OpLoadExchangeRates partialResponse;
             OpLoadExchangeRates FetchRejected]
            (initialPage ∅))).
Proof.
  exact (proj2 (rates_invariant ∅
                  [OpUpdateCustomRate "USD" "EUR" 0.9;
                   OpLoadExchangeRates partialResponse;
                   OpLoadExchangeRates FetchRejected]) eq_refl).
Defined.

Lemma symbol_text_not_sentinel (X s : string) :
  getCurrencySymbol X +:+ s <> rateNotFoundText.
Proof.
  unfold getCurrencySymbol.
  destruct (String.eqb X "UAH"); [|destruct (String.eqb X "EUR")];
    intros H; vm_compute in H; discriminate.
Qed.

(** C10, as stated, fails for the amounts the main script rejects: with
    equal currencies and a currency without entry, a zero or missing
    amount gives the invalid-amount text, not the identity result. *)
Lemma equal_currencies_amount_checked_first :
  convertCurrencyAmount ∅ (Some (mkConverterForm 0 "GBP" "GBP"))
    = Some invalidAmountText
  /\ convertCurrencyAmount ∅ (Some (mkConverterForm 0 "GBP" "GBP"))
     <> Some (getCurrencySymbol "GBP" +:+ toFixed 0 2)
  /\ convertCurrencyAmount ∅ (Some (mkConverterForm PrimFloat.nan "GBP" "GBP"))
     = Some invalidAmountText.
Proof.
  split; [reflexivity|]. split; [vm_compute; discriminate | reflexivity].
Qed.

(** C10 (amended): the comparison of the two currencies comes before any
    lookup in the rate table.  With equal currencies, whatever the table
    holds for X (nothing, zero, a negative number), the converter of the
    main script gives what it gives with an empty table and in no case
    the rate-not-found text: the amount itself for every amount greater
    than zero, and the invalid-amount text for a zero, negative or
    non-numeric amount, which is checked before the currencies are
    compared.  [updateCurrencyPair] shows 1.0000, not N/A, and the
    converter of [plaid_app.js] shows the amount itself for every
    amount. *)
Theorem equal_currencies_skip_table (t : gmap string float) (X : string)
    (amount : float) (i : nat) (st : RatesPage) (rate : string) :
  convertCurrencyAmount t (Some (mkConverterForm amount X X))
    = convertCurrencyAmount ∅ (Some (mkConverterForm amount X X))
  /\ convertCurrencyAmount t (Some (mkConverterForm amount X X))
     <> Some rateNotFoundText
  /\ convertCurrencyAmount t (Some (mkConverterForm amount X X))
     = Some (if PrimFloat.is_nan amount || PrimFloat.leb amount 0
             then invalidAmountText
             else getCurrencySymbol X +:+ toFixed amount 2)
  /\ pairRateText t X X = "1.0000"
  /\ (pairs st !! i = Some (mkPairRow X X rate) ->
      pairs (updateCurrencyPair i st) !! i = Some (mkPairRow X X "1.0000"))
  /\ convertCurrencyAmount_plaid t (Some (mkConverterForm amount X X))
     = Some ("$" +:+ toFixed (if truthy amount then amount else 0) 2).
Proof.
  unfold convertCurrencyAmount, convertCurrencyAmount_plaid, pairRateText.
  simpl. rewrite String.eqb_refl.
  split; [reflexivity|]. split; [|split; [|split; [reflexivity|split]]].
  - destruct (PrimFloat.is_nan amount || PrimFloat.leb amount 0).
    + vm_compute. discriminate.
    + intros [= H]. exact (symbol_text_not_sentinel _ _ H).
  - now destruct (PrimFloat.is_nan amount || PrimFloat.leb amount 0).
  - intros Hrow. unfold updateCurrencyPair. rewrite Hrow. simpl.
    rewrite lookup_insert_eq. unfold pairRateText.
    now rewrite String.eqb_refl.
  - reflexivity.
Qed.

Lemma equal_currencies_skip_table_witness :
  convertCurrencyAmount ∅ (Some (mkConverterForm 12.5 "GBP" "GBP"))
    = Some "$12.50"
  /\ pairs (updateCurrencyPair 2
              {| customRates := ∅;
                 pairs := {[ 2%nat := mkPairRow "GBP" "GBP" "" ]} |}) !! 2%nat
     = Some (mkPairRow "GBP" "GBP" "1.0000").
Proof.
  pose proof (equal_currencies_skip_table ∅ "GBP" 12.5 2
                {| customRates := ∅;
                   pairs := {[ 2%nat := mkPairRow "GBP" "GBP" "" ]} |} "")
    as (_ & _ & Hconv & _ & Hpair & _).
  split; [exact Hconv | exact (Hpair eq_refl)].
Defined.

End RatesFacts.

(** ** Navigation: round trips, reloads and repeated activation *)

Module NavigationFacts.
Import JSString Router Page Navigation RouterFacts PageFacts.

Lemma obj_get_route (b path view : string) :
  In (path, view) (routesFor b) -> obj_get (routesFor b) path = Some view.
Proof.
  destruct (obj_get_registered b) as (H1 & H2 & H3 & H4).
  simpl. intros [[= <- <-]|[[= <- <-]|[[= <- <-]|[[= <- <-]|[]]]]]; assumption.
Qed.

(** X1: each of the four views round-trips the other way: the path
    [navigateToTab] pushes for it is a registered route and resolves back
    to the view. *)
Theorem view_round_trip (pathname view : string) :
  In view ["dashboard"; "banks"; "transactions"; "advisor"] ->
  let r := newURLRouter pathname in
  exists path,
    navigateToTab r view = Some path
    /\ In (path, view) (routes r)
    /\ resolve r path = view.
Proof.
  intros Hin r. subst r. unfold newURLRouter.
  set (b := detectBasePath pathname).
  destruct (obj_get_registered b) as (H1 & H2 & H3 & H4).
  unfold navigateToTab, routeMap. simpl basePath.
  simpl in Hin.
  destruct Hin as [<- | [<- | [<- | [<- | []]]]]; simpl obj_get;
    cbv beta iota; rewrite truthy_append;
    eexists; (split; [reflexivity|]); rewrite resolve_routerAt;
    rewrite ?H1, ?H2, ?H3, ?H4; (split; [simpl; tauto | reflexivity]).
Qed.

Lemma view_round_trip_witness :
  exists path,
    navigateToTab (newURLRouter "/budget-manager-cloud/") "advisor" = Some path
    /\ In (path, "advisor") (routes (newURLRouter "/budget-manager-cloud/"))
    /\ resolve (newURLRouter "/budget-manager-cloud/") path = "advisor".
Proof.
  apply (view_round_trip "/budget-manager-cloud/" "advisor").
  simpl. tauto.
Defined.

(** X2: a page loaded at any registered route of a router builds the
    same router again (the same base path and routes), and so resolves
    that route to the same view: reloading, or opening a pushed URL,
    lands on the view that pushed it. *)
Theorem reload_same_router (pathname path view : string) :
  In (path, view) (routes (newURLRouter pathname)) ->
  newURLRouter path = newURLRouter pathname
  /\ resolve (newURLRouter path) path = view.
Proof.
  unfold newURLRouter, detectBasePath.
  destruct (includes pathname "/budget-manager-cloud/"); simpl;
    intros [[= <- <-]|[[= <- <-]|[[= <- <-]|[[= <- <-]|[]]]]];
    split; reflexivity.
Qed.

Lemma reload_same_router_witness :
  newURLRouter "/budget-manager-cloud/banks"
    = newURLRouter "/budget-manager-cloud/index.html"
  /\ resolve (newURLRouter "/budget-manager-cloud/banks")
       "/budget-manager-cloud/banks" = "banks".
Proof.
  apply (reload_same_router "/budget-manager-cloud/index.html"
           "/budget-manager-cloud/banks" "banks").
  simpl. tauto.
Defined.

Lemma filter_idem {A : Type} (f : A -> bool) (l : list A) :
  List.filter f (List.filter f l) = List.filter f l.
Proof.
  induction l as [|x l IH]; simpl; [reflexivity|].
  destruct (f x) eqn:Hx; simpl; rewrite ?Hx, IH; reflexivity.
Qed.

Lemma removeActive_idem (e : Element) :
  removeActive (removeActive e) = removeActive e.
Proof. unfold removeActive. simpl. now rewrite filter_idem. Qed.

Lemma tab_removeActive (e : Element) :
  hasClass "tab" (removeActive e) = hasClass "tab" e.
Proof. now rewrite hasClass_removeActive. Qed.

Lemma panel_removeActive (e : Element) :
  hasClass "tab-content" (removeActive e) = hasClass "tab-content" e.
Proof. now rewrite hasClass_removeActive. Qed.

Lemma active_removeActive (e : Element) :
  hasClass "active" (removeActive e) = false.
Proof. now rewrite hasClass_removeActive. Qed.

Lemma deactivated_spec (e : Element) :
  deactivated e =
  if hasClass "tab-content" e || hasClass "tab" e then removeActive e else e.
Proof.
  unfold deactivated.
  destruct (hasClass "tab-content" e) eqn:Hp.
  - rewrite tab_removeActive, orb_true_l.
    destruct (hasClass "tab" e); [apply removeActive_idem | reflexivity].
  - rewrite orb_false_l. reflexivity.
Qed.

Lemma hasClass_addActive (c : string) (e : Element) :
  hasClass c (addActive e) = hasClass c e || String.eqb c "active".
Proof.
  unfold addActive.
  destruct (hasClass "active" e) eqn:Ha.
  - destruct (String.eqb_spec c "active") as [->|Hne];
      [now rewrite Ha | now rewrite orb_false_r].
  - unfold hasClass. simpl. rewrite existsb_app. simpl.
    now rewrite orb_false_r.
Qed.


Lemma hasId_addActive (id : string) (e : Element) :
  hasId id (addActive e) = hasId id e.
Proof. unfold addActive. now destruct (hasClass "active" e). Qed.

Lemma hasId_deactivated (id : string) (e : Element) :
  hasId id (deactivated e) = hasId id e.
Proof.
  rewrite deactivated_spec.
  now destruct (hasClass "tab-content" e || hasClass "tab" e).
Qed.

Lemma onclick_addActive (t : string) (e : Element) :
  onclickShows t (addActive e) = onclickShows t e.
Proof. unfold addActive. now destruct (hasClass "active" e). Qed.

Lemma onclick_deactivated (t : string) (e : Element) :
  onclickShows t (deactivated e) = onclickShows t e.
Proof.
  rewrite deactivated_spec.
  now destruct (hasClass "tab-content" e || hasClass "tab" e).
Qed.

(** Whether the element is one of those [showTab] deactivates. *)
Lemma tabby_deactivated (e : Element) :
  hasClass "tab-content" (deactivated e) || hasClass "tab" (deactivated e)
  = hasClass "tab-content" e || hasClass "tab" e.
Proof.
  rewrite deactivated_spec.
  destruct (hasClass "tab-content" e || hasClass "tab" e) eqn:E;
    [now rewrite panel_removeActive, tab_removeActive | exact E].
Qed.

Lemma deactivated_inactive (e : Element) :
  (hasClass "tab-content" (deactivated e) || hasClass "tab" (deactivated e))
  && hasClass "active" (deactivated e) = false.
Proof.
  rewrite tabby_deactivated. rewrite deactivated_spec.
  destruct (hasClass "tab-content" e || hasClass "tab" e);
    [now rewrite active_removeActive, andb_false_r | reflexivity].
Qed.




Local Abbreviation marked p b e :=
  (if b then addActive (if p then addActive (deactivated e) else deactivated e)
   else (if p then addActive (deactivated e) else deactivated e)).

Lemma hasId_marked (t : string) (p b : bool) (e : Element) :
  hasId t (marked p b e) = hasId t e.
Proof. destruct p, b; now rewrite ?hasId_addActive, hasId_deactivated. Qed.

Lemma onclick_marked (t : string) (p b : bool) (e : Element) :
  onclickShows t (marked p b e) = onclickShows t e.
Proof. destruct p, b; now rewrite ?onclick_addActive, onclick_deactivated. Qed.


Lemma deactivateAll_map (doc : list Element) :
  deactivateAll "tab" (deactivateAll "tab-content" doc) = map deactivated doc.
Proof. unfold deactivateAll. now rewrite map_map. Qed.

Lemma activation_none (t : string) (doc : list Element) :
  activation t false false doc = map deactivated doc.
Proof.
  induction doc as [|e doc IH]; [reflexivity|].
  cbn [activation andb map]. now rewrite IH.
Qed.

Lemma panel_step (t : string) (doc doc' : list Element) :
  updateFirst (hasId t) addActive (map deactivated doc) = Some doc' ->
  doc' = activation t true false doc.
Proof.
  revert doc'. induction doc as [|e doc IH]; intros doc'; [discriminate|].
  cbn [map updateFirst activation andb]. rewrite hasId_deactivated.
  destruct (hasId t e).
  - intros [= <-]. cbn [negb]. now rewrite activation_none.
  - destruct (updateFirst (hasId t) addActive (map deactivated doc)) as [d|];
      [|discriminate].
    intros [= <-]. cbn [negb]. now rewrite (IH d eq_refl).
Qed.

Lemma button_step (t : string) (a : bool) (doc : list Element) :
  match updateFirst (onclickShows t) addActive (activation t a false doc) with
  | Some doc' => doc'
  | None => activation t a false doc
  end = activation t a true doc.
Proof.
  revert a. induction doc as [|e doc IH]; intros a; [reflexivity|].
  cbn [activation updateFirst andb].
  assert (Hon : onclickShows t
                  (if a && hasId t e then addActive (deactivated e)
                   else deactivated e) = onclickShows t e).
  { destruct (a && hasId t e);
      now rewrite ?onclick_addActive, onclick_deactivated. }
  rewrite Hon. destruct (onclickShows t e); cbn [negb andb].
  - reflexivity.
  - rewrite <- (IH (a && negb (a && hasId t e))).
    now destruct (updateFirst (onclickShows t) addActive
                    (activation t (a && negb (a && hasId t e)) false doc)).
Qed.

(** What a call of [showTab] that finds its panel leaves behind. *)
Lemma showTab_returns (t : string) (w : World) :
  existsb (hasId t) (document w) = true ->
  showTab t w =
  Returned
    {| document := activation t true true (document w);
       history := history w ++ pushedBy (router w) t;
       router := router w;
       timers := timers w ++ fst (loadersFor t);
       started := started w ++ snd (loadersFor t) |}.
Proof.
  intros E. unfold showTab.
  rewrite <- (hasId_deactivateAll t "tab-content") in E.
  rewrite <- (hasId_deactivateAll t "tab") in E.
  destruct (updateFirst_some _ addActive _ E) as [d Hd]. rewrite Hd.
  rewrite deactivateAll_map in Hd. apply panel_step in Hd. subst d.
  rewrite button_step. now destruct (loadersFor t).
Qed.



Lemma activation_marks_panel (t : string) (b : bool) (doc : list Element) :
  existsb (hasId t) doc = true ->
  existsb (fun e => hasId t e && hasClass "active" e)
          (activation t true b doc) = true.
Proof.
  revert b. induction doc as [|e doc IH]; intros b; [discriminate|].
  cbn [activation existsb andb].
  rewrite (hasId_marked t (hasId t e) (b && onclickShows t e) e).
  destruct (hasId t e) eqn:Hid; cbn [orb negb andb].
  - intros _. destruct (b && onclickShows t e);
      now rewrite ?hasClass_addActive, String.eqb_refl, ?orb_true_r.
  - intros H. now rewrite (IH _ H), ?orb_true_r.
Qed.

Lemma activation_marks_nothing_else (t : string) (a b : bool)
    (doc : list Element) :
  forallb (fun e => negb ((hasClass "tab-content" e || hasClass "tab" e)
                          && hasClass "active" e)
                    || hasId t e || onclickShows t e)
          (activation t a b doc) = true.
Proof.
  revert a b. induction doc as [|e doc IH]; intros a b; [reflexivity|].
  cbn [activation forallb]. rewrite IH, andb_true_r.
  rewrite (hasId_marked t (a && hasId t e) (b && onclickShows t e) e).
  rewrite (onclick_marked t (a && hasId t e) (b && onclickShows t e) e).
  destruct (hasId t e); [now rewrite orb_true_r|].
  destruct (onclickShows t e); [now rewrite !orb_true_r|].
  rewrite !andb_false_r, !orb_false_r.
  now rewrite deactivated_inactive.
Qed.

(** X3: for a view name made of letters, digits, [-] and [_] (for
    which the selector of the button is well formed and matches by
    substring), when [showTab] finds its panel, the panel ends up marked
    active, and no other panel or tab button does: an element of class
    [tab-content] or [tab] that is active afterwards has the id asked for
    or is a button whose [onclick] shows that tab. *)
Theorem showTab_marks_only_target (t : string) (w : World) :
  plainName t = true ->
  existsb (hasId t) (document w) = true ->
  let doc := document (world_of (showTab t w)) in
  existsb (fun e => hasId t e && hasClass "active" e) doc = true
  /\ forallb (fun e => negb ((hasClass "tab-content" e || hasClass "tab" e)
                             && hasClass "active" e)
                       || hasId t e || onclickShows t e) doc = true.
Proof.
  intros _ E doc. subst doc. rewrite (showTab_returns t w E). simpl.
  split; [now apply activation_marks_panel
         | apply activation_marks_nothing_else].
Qed.

Lemma showTab_marks_only_target_witness :
  existsb (fun e => hasId "banks" e && hasClass "active" e)
          (document (world_of (showTab "banks" samplePage))) = true
  /\ forallb (fun e => negb ((hasClass "tab-content" e || hasClass "tab" e)
                             && hasClass "active" e)
                       || hasId "banks" e || onclickShows "banks" e)
             (document (world_of (showTab "banks" samplePage))) = true.
Proof.
  exact (showTab_marks_only_target "banks" samplePage eq_refl eq_refl).
Defined.




(** X6: [goHome] sends the browser to the root route of the base path
    the router works with: the router built at the destination is the one
    built at the current path, and it resolves the destination to the
    dashboard.  The page restore that runs first on the new page does
    not redirect, since [goHome] has removed [currentPage]; every other
    stored item is kept. *)
Theorem goHome_lands_on_dashboard (pathname : string)
    (storage : gmap string string) (key : string) :
  let storage' := fst (goHome pathname storage) in
  let dest := snd (goHome pathname storage) in
  restorePage storage' dest = None
  /\ newURLRouter dest = newURLRouter pathname
  /\ In (dest, "dashboard") (routes (newURLRouter pathname))
  /\ resolve (newURLRouter dest) dest = "dashboard"
  /\ storage' !! key =
     (if String.eqb key "currentPage" then None else storage !! key).
Proof.
  cbv zeta. unfold goHome, restorePage, newURLRouter, detectBasePath.
  cbn [fst snd]. rewrite lookup_delete_eq.
  split; [reflexivity|].
  split; [now destruct (includes pathname "/budget-manager-cloud/")|].
  split; [destruct (includes pathname "/budget-manager-cloud/"); simpl; tauto|].
  split; [now destruct (includes pathname "/budget-manager-cloud/")|].
  destruct (String.eqb_spec key "currentPage") as [->|Hne];
    [apply lookup_delete_eq | apply lookup_delete_ne; congruence].
Qed.

(** X7: opening the page at a registered route whose panel exists marks
    that panel active once the deferred callback has run, and, for every
    view but the dashboard, pushes the path just opened into the history
    once more. *)
Theorem start_at_route (pathname view : string) (w : World) :
  timers w = [] ->
  In (pathname, view) (routes (newURLRouter pathname)) ->
  existsb (hasId view) (document w) = true ->
  let w' := runDue (startRouter pathname w) in
  existsb (fun e => hasId view e && hasClass "active" e) (document w') = true
  /\ history w' =
     (history w ++ if String.eqb view "dashboard" then [] else [pathname])%list
  /\ router w' = Some (newURLRouter pathname).
Proof.
  intros Ht Hin Hpanel w'. subst w'.
  unfold runDue, startRouter, handleRoute. simpl. rewrite Ht. simpl.
  assert (Hres : resolve (newURLRouter pathname) pathname = view).
  { unfold newURLRouter in *. rewrite resolve_routerAt.
    now rewrite (obj_get_route _ _ _ Hin). }
  rewrite Hres. rewrite showTab_returns by exact Hpanel.
  cbn [world_of document history router].
  split; [now apply activation_marks_panel|]. split; [|reflexivity].
  f_equal. unfold newURLRouter in *.
  set (b := detectBasePath pathname) in *.
  assert (Hview : view = "dashboard" \/ view = "banks"
                  \/ view = "transactions" \/ view = "advisor").
  { simpl in Hin.
    destruct Hin as [[= _ <-]|[[= _ <-]|[[= _ <-]|[[= _ <-]|[]]]]]; tauto. }
  rewrite (pushedBy_registered b view Hview).
  simpl in Hin.
  destruct Hin as [[= Hp <-]|[[= Hp <-]|[[= Hp <-]|[[= Hp <-]|[]]]]];
    simpl; rewrite <- ?Hp; reflexivity.
Qed.

Lemma start_at_route_witness :
  existsb (fun e => hasId "banks" e && hasClass "active" e)
          (document (runDue (startRouter "/banks" samplePage))) = true
  /\ history (runDue (startRouter "/banks" samplePage)) = ["/banks"].
Proof.
  pose proof (start_at_route "/banks" "banks" samplePage eq_refl
                (or_intror (or_introl eq_refl)) eq_refl) as (Ha & Hh & _).
  split; [exact Ha | exact Hh].
Defined.

End NavigationFacts.

(** ** Rates: refreshing twice, the rate rows, the two copies *)

Module RatesExtraFacts.
Import JSNumber Rates RatesFacts.
Local Open Scope float_scope.

Lemma page_eta (st : RatesPage) :
  {| customRates := customRates st; pairs := pairs st |} = st.
Proof. now destruct st. Qed.

Lemma updateCurrencyPair_lookup (j i : nat) (st : RatesPage) :
  pairs (updateCurrencyPair j st) !! i =
  if Nat.eqb i j
  then (fun row =>
          {| pair_from := pair_from row; pair_to := pair_to row;
             pair_rate := pairRateText (customRates st)
                            (pair_from row) (pair_to row) |})
         <$> pairs st !! i
  else pairs st !! i.
Proof.
  unfold updateCurrencyPair.
  destruct (Nat.eqb_spec i j) as [->|Hne].
  - destruct (pairs st !! j) as [row|] eqn:E; simpl.
    + now rewrite lookup_insert_eq.
    + now rewrite E.
  - destruct (pairs st !! j) as [row|]; simpl; [|reflexivity].
    apply lookup_insert_ne. congruence.
Qed.

Lemma updateRatesUI_lookup (st : RatesPage) (i : nat) :
  pairs (updateRatesUI st) !! i =
  if (1 <=? i)%nat && (i <=? 4)%nat
  then (fun row =>
          {| pair_from := pair_from row; pair_to := pair_to row;
             pair_rate := pairRateText (customRates st)
                            (pair_from row) (pair_to row) |})
         <$> pairs st !! i
  else pairs st !! i.
Proof.
  unfold updateRatesUI. cbn [fold_left].
  rewrite !updateCurrencyPair_lookup, !updateCurrencyPair_rates.
  destruct i as [|[|[|[|[|i]]]]]; reflexivity.
Qed.

Lemma updateRatesUI_idem (st : RatesPage) :
  updateRatesUI (updateRatesUI st) = updateRatesUI st.
Proof.
  rewrite <- (page_eta (updateRatesUI (updateRatesUI st))).
  rewrite <- (page_eta (updateRatesUI st)) at 3.
  rewrite !updateRatesUI_rates. f_equal.
  apply map_eq. intros k. rewrite (updateRatesUI_lookup (updateRatesUI st) k).
  rewrite updateRatesUI_rates, (updateRatesUI_lookup st k).
  destruct ((1 <=? k)%nat && (k <=? 4)%nat); [|reflexivity].
  now destruct (pairs st !! k).
Qed.

(** X10: [updateRatesUI] rewrites the rate cell of each of the pair rows
    1 to 4 that is present with the rate text of the currencies selected
    in that row, and touches nothing else: the selects, the rows with
    other numbers and the rate table stay as they are.  Running it again
    changes nothing. *)
Theorem updateRatesUI_rows (st : RatesPage) (i : nat) :
  pairs (updateRatesUI st) !! i =
    (if (1 <=? i)%nat && (i <=? 4)%nat
     then (fun row =>
             {| pair_from := pair_from row; pair_to := pair_to row;
                pair_rate := pairRateText (customRates st)
                               (pair_from row) (pair_to row) |})
            <$> pairs st !! i
     else pairs st !! i)
  /\ customRates (updateRatesUI st) = customRates st
  /\ updateRatesUI (updateRatesUI st) = updateRatesUI st.
Proof.
  split; [apply updateRatesUI_lookup|].
  split; [apply updateRatesUI_rates | apply updateRatesUI_idem].
Qed.

Lemma applyRates_idem (rates t : gmap string float) :
  applyRates rates (applyRates rates t) = applyRates rates t.
Proof.
  apply map_eq. intros k. rewrite !lookup_applyRates.
  destruct (String.eqb k "USD"); [reflexivity|].
  now destruct ((String.eqb k "CAD" || String.eqb k "EUR"
                 || String.eqb k "UAH" || String.eqb k "RUB")
                && negb (falsy (rates !! k))).
Qed.

(** X8: refreshing the rates twice with the same outcome of the fetch
    leaves the page (table and rate cells) as one refresh does. *)
Theorem loadExchangeRates_twice (net : FetchOutcome) (st : RatesPage) :
  loadExchangeRates net (loadExchangeRates net st) = loadExchangeRates net st.
Proof.
  pose proof updateRatesUI_idem as Hidem.
  destruct net as [|[|] [|[rates|]]]; simpl; try apply Hidem.
  rewrite updateRatesUI_rates. simpl. rewrite applyRates_idem.
  rewrite <- (updateRatesUI_rates
                {| customRates := applyRates rates (customRates st);
                   pairs := pairs st |}) at 1.
  rewrite page_eta. apply Hidem.
Qed.

(** X9: when the response carries a truthy rate for each of CAD, EUR,
    UAH and RUB, the five entries of the table after the refresh are
    those of the response (with USD at 1) whatever the table held
    before: rates set by hand through [updateCustomRate] are
    overwritten. *)
Theorem full_response_overrides (rates : gmap string float)
    (st1 st2 : RatesPage) (code : string) :
  forallb (fun c => negb (falsy (rates !! c))) ["CAD"; "EUR"; "UAH"; "RUB"]
    = true ->
  In code ["USD"; "CAD"; "EUR"; "UAH"; "RUB"] ->
  customRates (loadExchangeRates (FetchResponse true (BodyData (Some rates))) st1)
    !! code
  = (if String.eqb code "USD" then Some 1 else rates !! code)
  /\ customRates (loadExchangeRates (FetchResponse true (BodyData (Some rates))) st1)
       !! code
     = customRates
         (loadExchangeRates (FetchResponse true (BodyData (Some rates))) st2)
       !! code.
Proof.
  simpl forallb. rewrite !andb_true_iff. intros (HC & HE & HA & HR & _) Hin.
  simpl loadExchangeRates. rewrite !updateRatesUI_rates. simpl customRates.
  rewrite !lookup_applyRates. simpl in Hin.
  destruct Hin as [<- | [<- | [<- | [<- | [<- | []]]]]]; simpl;
    rewrite ?HC, ?HE, ?HA, ?HR; split; reflexivity.
Qed.

Lemma full_response_overrides_witness :
  customRates
    (loadExchangeRates
       (FetchResponse true
          (BodyData (Some (<["CAD" := 1.4]> (<["EUR" := 0.9]>
             (<["UAH" := 40]> (<["RUB" := 90]> ∅)))))))
       (updateCustomRate "USD" "EUR" 0.5 (initialPage ∅)))
    !! "EUR" = Some 0.9.
Proof.
  exact (proj1 (full_response_overrides
                  (<["CAD" := 1.4]> (<["EUR" := 0.9]>
                     (<["UAH" := 40]> (<["RUB" := 90]> ∅))))
                  (updateCustomRate "USD" "EUR" 0.5 (initialPage ∅))
                  (initialPage ∅) "EUR" eq_refl
                  (or_intror (or_intror (or_introl eq_refl))))).
Defined.

Lemma truthy_not_nan (x : float) : truthy x = true -> PrimFloat.is_nan x = false.
Proof.
  unfold truthy. destruct (PrimFloat.is_nan x); [|reflexivity].
  now rewrite orb_true_r.
Qed.

(** X11: a value [v] given to [updateCustomRate] is stored as the rate
    of the non-USD currency of the pair, whichever side of the pair it
    is on.  With USD at 1, the row USD -> EUR then shows [1 / 1 * v],
    while the row CAD -> USD shows [1 / v * 1], the inverse of the value
    given (1.3514 for 0.74). *)
Theorem updateCustomRate_then_rows (st : RatesPage) (v : float) :
  truthy v = true ->
  customRates st !! "USD" = Some 1 ->
  pairRateText (customRates (updateCustomRate "USD" "EUR" v st)) "USD" "EUR"
    = (if PrimFloat.is_nan (1 / 1 * v) then "N/A" else toFixed (1 / 1 * v) 4)
  /\ pairRateText (customRates (updateCustomRate "CAD" "USD" v st)) "CAD" "USD"
    = (if PrimFloat.is_nan (1 / v * 1) then "N/A" else toFixed (1 / v * 1) 4).
Proof.
  intros Hv Husd. unfold updateCustomRate.
  rewrite (truthy_not_nan v Hv). simpl. unfold pairRateText. simpl.
  rewrite !lookup_insert_eq, !lookup_insert_ne by discriminate.
  rewrite Husd. simpl. rewrite Hv. simpl. split; reflexivity.
Qed.

Lemma updateCustomRate_then_rows_witness :
  pairRateText (customRates (updateCustomRate "USD" "EUR" 0.74 (initialPage ∅)))
    "USD" "EUR" = "0.7400"
  /\ pairRateText (customRates (updateCustomRate "CAD" "USD" 0.74 (initialPage ∅)))
       "CAD" "USD" = "1.3514".
Proof.
  exact (updateCustomRate_then_rows (initialPage ∅) 0.74 eq_refl eq_refl).
Defined.

(** X12: the rate row of [plaid_app.js] has no shortcut for equal
    currencies.  When one of the two currencies has no usable rate of
    its own (none, zero or NaN) and neither name is that of a member
    every object inherits, it shows N/A, also for a pair of equal
    currencies, for which the main script shows 1.0000.  For a name X
    that every object inherits ([constructor], [toString], ...) and that
    has no rate of its own, [customRates[X]] is a function: the row
    X -> X of [plaid_app.js] passes the test and shows NaN, where the
    main script shows 1.0000. *)
Theorem plaid_row_without_rate (t : gmap string float)
    (fromCurrency toCurrency : string) :
  falsy (t !! fromCurrency) || falsy (t !! toCurrency) = true ->
  Router.inheritedMember fromCurrency = false ->
  Router.inheritedMember toCurrency = false ->
  PlaidPage.pairRateText t fromCurrency toCurrency = "N/A"
  /\ pairRateText t fromCurrency toCurrency
     = (if String.eqb fromCurrency toCurrency then "1.0000" else "N/A")
  /\ (forall X, Router.inheritedMember X = true -> t !! X = None ->
      PlaidPage.pairRateText t X X = "NaN"
      /\ pairRateText t X X = "1.0000").
Proof.
  intros H Hf Ht. split; [|split].
  - unfold PlaidPage.pairRateText, PlaidPage.truthyMember.
    unfold falsy in H. rewrite Hf, Ht.
    destruct (t !! fromCurrency) as [x|], (t !! toCurrency) as [y|];
      try reflexivity; simpl in *.
    + destruct (truthy x), (truthy y); try reflexivity; discriminate.
    + now rewrite andb_false_r.
  - unfold pairRateText. now rewrite H.
  - intros X HX Hnone. split.
    + unfold PlaidPage.pairRateText, PlaidPage.truthyMember.
      now rewrite Hnone, HX.
    + unfold pairRateText. now rewrite String.eqb_refl.
Qed.

Lemma plaid_row_without_rate_witness :
  (PlaidPage.pairRateText initialRates "GBP" "GBP" = "N/A"
   /\ pairRateText initialRates "GBP" "GBP" = "1.0000")
  /\ (PlaidPage.pairRateText initialRates "constructor" "constructor" = "NaN"
      /\ pairRateText initialRates "constructor" "constructor" = "1.0000").
Proof.
  pose proof (plaid_row_without_rate initialRates "GBP" "GBP"
                eq_refl eq_refl eq_refl) as (Hplaid & Hmain & Hinherited).
  split; [split; [exact Hplaid | exact Hmain]|].
  exact (Hinherited "constructor" eq_refl eq_refl).
Defined.

Lemma plaid_updateRatesUI_rates (st : RatesPage) :
  customRates (PlaidPage.updateRatesUI st) = customRates st.
Proof.
  assert (H : forall i s,
             customRates (PlaidPage.updateCurrencyPair i s) = customRates s).
  { intros i s. unfold PlaidPage.updateCurrencyPair.
    now destruct (pairs s !! i). }
  unfold PlaidPage.updateRatesUI. simpl. now rewrite !H.
Qed.

Lemma plaid_updateCurrencyPair_lookup (j i : nat) (st : RatesPage) :
  pairs (PlaidPage.updateCurrencyPair j st) !! i =
  if Nat.eqb i j
  then (fun row =>
          {| pair_from := pair_from row; pair_to := pair_to row;
             pair_rate := PlaidPage.pairRateText (customRates st)
                            (pair_from row) (pair_to row) |})
         <$> pairs st !! i
  else pairs st !! i.
Proof.
  unfold PlaidPage.updateCurrencyPair.
  destruct (Nat.eqb_spec i j) as [->|Hne].
  - destruct (pairs st !! j) as [row|] eqn:E; simpl.
    + now rewrite lookup_insert_eq.
    + now rewrite E.
  - destruct (pairs st !! j) as [row|]; simpl; [|reflexivity].
    apply lookup_insert_ne. congruence.
Qed.

Lemma plaid_updateRatesUI_lookup (st : RatesPage) (i : nat) :
  pairs (PlaidPage.updateRatesUI st) !! i =
  if (1 <=? i)%nat && (i <=? 4)%nat
  then (fun row =>
          {| pair_from := pair_from row; pair_to := pair_to row;
             pair_rate := PlaidPage.pairRateText (customRates st)
                            (pair_from row) (pair_to row) |})
         <$> pairs st !! i
  else pairs st !! i.
Proof.
  assert (H : forall k s,
             customRates (PlaidPage.updateCurrencyPair k s) = customRates s).
  { intros k s. unfold PlaidPage.updateCurrencyPair.
    now destruct (pairs s !! k). }
  unfold PlaidPage.updateRatesUI. cbn [fold_left].
  rewrite !plaid_updateCurrencyPair_lookup, !H.
  destruct i as [|[|[|[|[|i]]]]]; reflexivity.
Qed.

Lemma applyRates_empty (t : gmap string float) :
  applyRates ∅ t = <["USD" := 1]> t.
Proof. reflexivity. Qed.

(** X13: the two copies of [loadExchangeRates] on the same outcome of
    the fetch.  From a table whose USD rate is 1, as the initial table
    of both files is, they leave the same rate table for every outcome.
    They differ in two ways.  The copy of [plaid_app.js] has no test of
    [data.rates]: for a [rates] member that is [0], [''] or [false] it
    sets the USD rate to 1 and refreshes the cells, where the main
    script takes the failure branch and leaves the table alone.  And
    the main script ends every outcome by writing, into the cell of
    each of the rows 1 to 4, the rate text of the table it leaves; the
    copy of [plaid_app.js] does so, with its own rate text, only when
    its [try] block completes, and when the block throws (rejected
    fetch, status not ok, unparsable body, [rates] missing or null) it
    leaves every cell as it was. *)
Theorem loadExchangeRates_copies (net : PlaidPage.PlaidOutcome)
    (st : RatesPage) (i : nat) :
  (customRates st !! "USD" = Some 1 ->
   customRates (PlaidPage.loadExchangeRates net st)
     = customRates (loadExchangeRates (PlaidPage.seenByMain net) st))
  /\ (customRates
        (PlaidPage.loadExchangeRates
           (PlaidPage.PlaidResponse true (PlaidPage.PlaidData PlaidPage.RatesFalsy))
           st)
      = <["USD" := 1]> (customRates st)
      /\ customRates
           (loadExchangeRates
              (PlaidPage.seenByMain
                 (PlaidPage.PlaidResponse true
                    (PlaidPage.PlaidData PlaidPage.RatesFalsy))) st)
         = customRates st)
  /\ pairs (PlaidPage.loadExchangeRates net st) !! i
     = match PlaidPage.membersRead net with
       | Some _ =>
           if (1 <=? i)%nat && (i <=? 4)%nat
           then (fun row =>
                   {| pair_from := pair_from row; pair_to := pair_to row;
                      pair_rate :=
                        PlaidPage.pairRateText
                          (customRates (PlaidPage.loadExchangeRates net st))
                          (pair_from row) (pair_to row) |})
                  <$> pairs st !! i
           else pairs st !! i
       | None => pairs st !! i
       end
  /\ pairs (loadExchangeRates (PlaidPage.seenByMain net) st) !! i
     = (if (1 <=? i)%nat && (i <=? 4)%nat
        then (fun row =>
                {| pair_from := pair_from row; pair_to := pair_to row;
                   pair_rate :=
                     pairRateText
                       (customRates
                          (loadExchangeRates (PlaidPage.seenByMain net) st))
                       (pair_from row) (pair_to row) |})
               <$> pairs st !! i
        else pairs st !! i).
Proof.
  split; [|split; [|split]].
  - intros Husd.
    assert (Hid : <["USD" := 1]> (customRates st) = customRates st)
      by now apply insert_id.
    destruct net as [|[|] [|[| |rates]]]; unfold PlaidPage.loadExchangeRates;
      simpl;
      rewrite ?plaid_updateRatesUI_rates, ?updateRatesUI_rates; simpl;
      rewrite ?applyRates_empty, ?Hid; reflexivity.
  - unfold PlaidPage.loadExchangeRates. simpl.
    now rewrite plaid_updateRatesUI_rates, updateRatesUI_rates.
  - unfold PlaidPage.loadExchangeRates.
    destruct (PlaidPage.membersRead net) as [rates|]; [|reflexivity].
    now rewrite plaid_updateRatesUI_lookup, plaid_updateRatesUI_rates.
  - destruct net as [|[|] [|[| |rates]]]; simpl;
      now rewrite updateRatesUI_lookup, updateRatesUI_rates.
Qed.

Lemma loadExchangeRates_copies_witness :
  customRates
    (PlaidPage.loadExchangeRates
       (PlaidPage.PlaidResponse true (PlaidPage.PlaidData PlaidPage.RatesFalsy))
       (PlaidPage.freshPanel initialRates))
  = customRates
      (loadExchangeRates
         (PlaidPage.seenByMain
            (PlaidPage.PlaidResponse true
               (PlaidPage.PlaidData PlaidPage.RatesFalsy)))
         (PlaidPage.freshPanel initialRates))
  /\ pairs (PlaidPage.loadExchangeRates PlaidPage.PlaidRejected
              (PlaidPage.freshPanel initialRates)) !! 1%nat
     = Some (mkPairRow "CAD" "USD" "-")
  /\ pairs (loadExchangeRates (PlaidPage.seenByMain PlaidPage.PlaidRejected)
              (PlaidPage.freshPanel initialRates)) !! 1%nat
     = Some (mkPairRow "CAD" "USD" "0.7407")
  /\ pairs (PlaidPage.loadExchangeRates
              (PlaidPage.PlaidResponse true
                 (PlaidPage.PlaidData PlaidPage.RatesFalsy))
              (PlaidPage.freshPanel initialRates)) !! 4%nat
     = Some (mkPairRow "GBP" "GBP" "N/A").
Proof.
  split.
  - exact (proj1 (loadExchangeRates_copies
                    (PlaidPage.PlaidResponse true
                       (PlaidPage.PlaidData PlaidPage.RatesFalsy))
                    (PlaidPage.freshPanel initialRates) 1) eq_refl).
  - repeat split; reflexivity.
Defined.

End RatesExtraFacts.

(** ** Balance converters and the currency options *)

Module BalancesFacts.
Import JSNumber Rates Balances.
Local Open Scope float_scope.

(** X14: for a balance greater than zero, two distinct currencies with
    usable rates and a result that is a number, the converter of an
    account shows exactly what the converter form of the main script
    shows for the same amount and currencies; the older converter of a
    region does too, except that it writes the ruble sign where the
    other two write a dollar sign. *)
Theorem converters_agree (t : gmap string float) (text : string)
    (balance : float) (source target regionId : string) :
  String.eqb source target = false ->
  JSString.truthy target = true ->
  PrimFloat.is_nan balance || PrimFloat.leb balance 0 = false ->
  falsy (t !! source) || falsy (t !! target) = false ->
  PrimFloat.is_nan (balance / toNumber (t !! source) * toNumber (t !! target))
    = false ->
  regionCurrency regionId = source ->
  convertAccountCurrency t (Some (mkBalanceCell text balance (Some source))) target
    = convertCurrencyAmount t (Some (mkConverterForm balance source target))
  /\ convertCurrency t regionId (Some balance) target
     = (if String.eqb target "RUB"
        then Some ("₽" +:+
                   toFixed (balance / toNumber (t !! source)
                            * toNumber (t !! target)) 2)
        else convertCurrencyAmount t
               (Some (mkConverterForm balance source target))).
Proof.
  intros Hne Htarget Hamount Hrates Hnum Hregion.
  assert (Hnan : PrimFloat.is_nan balance = false)
    by (destruct (PrimFloat.is_nan balance); [discriminate | reflexivity]).
  unfold convertAccountCurrency, convertCurrency, convertCurrencyAmount.
  simpl. rewrite Hregion, Htarget, Hamount, Hnan, Hne, Hrates, Hnum. simpl.
  unfold getCurrencySymbol.
  split; [reflexivity|].
  destruct (String.eqb target "UAH") eqn:HU.
  - apply String.eqb_eq in HU. now subst target.
  - destruct (String.eqb target "EUR") eqn:HE.
    + apply String.eqb_eq in HE. now subst target.
    + now destruct (String.eqb target "RUB").
Qed.

Lemma converters_agree_witness :
  convertAccountCurrency initialRates
    (Some (mkBalanceCell "$119.14 CAD" 119.14 (Some "CAD"))) "EUR"
    = Some "€75.01"
  /\ convertCurrency initialRates "canada" (Some 119.14) "RUB"
     = Some "₽7324.90".
Proof.
  pose proof (converters_agree initialRates "$119.14 CAD" 119.14 "CAD" "EUR"
                "canada" eq_refl eq_refl eq_refl eq_refl eq_refl eq_refl)
    as [Ha _].
  pose proof (converters_agree initialRates "" 119.14 "CAD" "RUB"
                "canada" eq_refl eq_refl eq_refl eq_refl eq_refl eq_refl)
    as [_ Hr].
  split; [exact Ha | exact Hr].
Defined.

(** X15: the options offered for converting an account never contain
    the currency of the account itself and contain every other one of
    USD, EUR, CAD, UAH and RUB, in that order: four options for an
    account in one of these currencies, all five otherwise. *)
Theorem offered_currencies (originalCurrency currency : string) :
  (In currency (offeredCurrencies originalCurrency)
   <-> In currency allCurrencies /\ currency <> originalCurrency)
  /\ length (offeredCurrencies originalCurrency)
     = (if existsb (String.eqb originalCurrency) allCurrencies then 4 else 5)%nat
  /\ getCurrencyOptions originalCurrency
     = String.concat "" (map optionTag (offeredCurrencies originalCurrency)).
Proof.
  split; [|split; [|reflexivity]].
  - unfold offeredCurrencies. rewrite List.filter_In.
    rewrite negb_true_iff, String.eqb_neq. reflexivity.
  - unfold offeredCurrencies, allCurrencies. cbn [List.filter existsb].
    rewrite !(String.eqb_sym originalCurrency).
    destruct (String.eqb_spec "USD" originalCurrency) as [<-|H1];
      [reflexivity|].
    destruct (String.eqb_spec "EUR" originalCurrency) as [<-|H2];
      [reflexivity|].
    destruct (String.eqb_spec "CAD" originalCurrency) as [<-|H3];
      [reflexivity|].
    destruct (String.eqb_spec "UAH" originalCurrency) as [<-|H4];
      [reflexivity|].
    destruct (String.eqb_spec "RUB" originalCurrency) as [<-|H5];
      reflexivity.
Qed.

End BalancesFacts.

(** ** Assets: the grouping loop and the guard of [loadAssets] *)

Module AssetsFacts.
Import JSNumber Assets.
Local Open Scope float_scope.

Lemma addBank_banks (regions : Regions) (bank : BankStatus) (id : RegionId) :
  region_banks (regionAt id (addBank regions bank)) =
  (region_banks (regionAt id regions) ++
   if sameRegion (regionOf (bank_name bank)) id then [bankInfoOf bank] else [])%list.
Proof.
  unfold addBank.
  destruct (regionOf (bank_name bank)), id; simpl;
    now rewrite ?app_nil_r.
Qed.

Lemma addBank_total (regions : Regions) (bank : BankStatus) (id : RegionId) :
  region_total (regionAt id (addBank regions bank)) =
  if sameRegion (regionOf (bank_name bank)) id
  then region_total (regionAt id regions) + info_total (bankInfoOf bank)
  else region_total (regionAt id regions).
Proof.
  unfold addBank. now destruct (regionOf (bank_name bank)), id.
Qed.

Lemma fold_banks (banks : list BankStatus) (acc : Regions) (id : RegionId) :
  region_banks (regionAt id (fold_left addBank banks acc)) =
  (region_banks (regionAt id acc) ++
   map bankInfoOf
     (List.filter (fun b => sameRegion (regionOf (bank_name b)) id) banks))%list.
Proof.
  revert acc. induction banks as [|b banks IH]; intros acc; simpl.
  - now rewrite app_nil_r.
  - rewrite IH, addBank_banks.
    destruct (sameRegion (regionOf (bank_name b)) id); simpl;
      now rewrite <- ?app_assoc, ?app_nil_r.
Qed.

Lemma fold_totals (banks : list BankStatus) (acc : Regions) (id : RegionId) :
  region_total (regionAt id (fold_left addBank banks acc)) =
  fold_left (fun sum info => sum + info_total info)
    (map bankInfoOf
       (List.filter (fun b => sameRegion (regionOf (bank_name b)) id) banks))
    (region_total (regionAt id acc)).
Proof.
  revert acc. induction banks as [|b banks IH]; intros acc; simpl;
    [reflexivity|].
  rewrite IH, addBank_total.
  now destruct (sameRegion (regionOf (bank_name b)) id).
Qed.

Lemma one_region_each (banks : list BankStatus) :
  (length (List.filter (fun b => sameRegion (regionOf (bank_name b)) Canada) banks)
   + length (List.filter (fun b => sameRegion (regionOf (bank_name b)) Ukraine) banks)
   + length (List.filter (fun b => sameRegion (regionOf (bank_name b)) Other) banks)
   + length (List.filter (fun b => sameRegion (regionOf (bank_name b)) Investments) banks)
   = length banks)%nat.
Proof.
  induction banks as [|b banks IH]; simpl; [reflexivity|].
  destruct (regionOf (bank_name b)); simpl; lia.
Qed.

(** X16: the grouping loop of [loadAssets] puts every bank of the status
    list into exactly one of the four regions, the one its name selects,
    and keeps the order of the list inside each region; the total of a
    region is the sum, taken in that order from 0, of the totals of its
    banks. *)
Theorem groupBanks_partition (banksData : list BankStatus) (id : RegionId) :
  region_banks (regionAt id (groupBanks banksData))
    = map bankInfoOf
        (List.filter (fun b => sameRegion (regionOf (bank_name b)) id) banksData)
  /\ region_total (regionAt id (groupBanks banksData))
     = fold_left (fun sum info => sum + info_total info)
         (region_banks (regionAt id (groupBanks banksData))) 0
  /\ (length (region_banks (canada (groupBanks banksData)))
      + length (region_banks (ukraine (groupBanks banksData)))
      + length (region_banks (other (groupBanks banksData)))
      + length (region_banks (investments (groupBanks banksData)))
      = length banksData)%nat.
Proof.
  unfold groupBanks.
  assert (Hb : forall r, region_banks (regionAt r (fold_left addBank banksData emptyRegions))
                  = map bankInfoOf
                      (List.filter (fun b => sameRegion (regionOf (bank_name b)) r)
                                   banksData)).
  { intros r. rewrite fold_banks. now destruct r. }
  split; [apply Hb|]. split.
  - rewrite Hb, fold_totals. now destruct id.
  - pose proof (Hb Canada) as HC. pose proof (Hb Ukraine) as HU.
    pose proof (Hb Other) as HO. pose proof (Hb Investments) as HI.
    cbn [regionAt] in HC, HU, HO, HI. rewrite HC, HU, HO, HI.
    rewrite !length_map. apply one_region_each.
Qed.

Lemma loadStep_invariant (st st' : LoadState) (ev : LoadEvent) :
  inFlight st = (if loading st then 1 else 0)%nat ->
  loadStep st ev = Some st' ->
  inFlight st' = (if loading st' then 1 else 0)%nat.
Proof.
  intros Hinv. destruct ev; simpl.
  - destruct (loading st) eqn:Hl; intros [= <-]; simpl;
      [now rewrite Hl | now rewrite Hinv].
  - destruct (loading st); rewrite Hinv; [|discriminate].
    now intros [= <-].
Qed.

(** X17: the guard of [loadAssets] does what its comment says: in every
    state reached from an idle page by calls of [loadAssets] and by
    bodies reaching their [finally] block, at most one body is in
    flight, and the flag [assetsLoading] is set exactly while one is. *)
Theorem one_load_at_a_time (evs : list LoadEvent) (st : LoadState) :
  loadRun idle evs = Some st ->
  inFlight st = (if loading st then 1 else 0)%nat.
Proof.
  assert (Hgen : forall s, inFlight s = (if loading s then 1 else 0)%nat ->
                           loadRun s evs = Some st ->
                           inFlight st = (if loading st then 1 else 0)%nat).
  { induction evs as [|ev evs IH]; intros s Hinv; simpl.
    - now intros [= <-].
    - destruct (loadStep s ev) as [s'|] eqn:E; [|discriminate].
      apply IH. exact (loadStep_invariant s s' ev Hinv E). }
  apply Hgen. reflexivity.
Qed.

Lemma one_load_at_a_time_witness :
  loadRun idle [CallLoadAssets; CallLoadAssets; SettleLoadAssets; CallLoadAssets]
    = Some {| loading := true; inFlight := 1 |}
  /\ inFlight {| loading := true; inFlight := 1 |} = 1%nat.
Proof.
  split; [reflexivity|].
  exact (one_load_at_a_time
           [CallLoadAssets; CallLoadAssets; SettleLoadAssets; CallLoadAssets]
           {| loading := true; inFlight := 1 |} eq_refl).
Defined.

End AssetsFacts.

(** ** Management methods: what is shown after a switch *)

Module ManagementFacts.
Import JSString Management.

Lemma block_updateFirst_none (p : Block -> bool) (f : Block -> Block)
    (doc : list Block) :
  existsb p doc = false -> updateFirst p f doc = None.
Proof.
  induction doc as [|e doc IH]; simpl; [reflexivity|].
  destruct (p e); simpl; [discriminate|].
  intros H. now rewrite (IH H).
Qed.

Lemma block_updateFirst_some (p : Block -> bool) (f : Block -> Block)
    (doc : list Block) :
  existsb p doc = true -> exists doc', updateFirst p f doc = Some doc'.
Proof.
  induction doc as [|e doc IH]; simpl; [discriminate|].
  destruct (p e); simpl; [eauto|].
  intros H. destruct (IH H) as [d ->]. simpl. eauto.
Qed.

Section UpdateFirst.
Variables (p : Block -> bool) (f : Block -> Block).

Lemma updateFirst_forallb (q : Block -> bool) (doc doc' : list Block) :
  (forall e, p e = true -> q (f e) = true) ->
  updateFirst p f doc = Some doc' ->
  forallb q doc = true -> forallb q doc' = true.
Proof.
  intros Hq. revert doc'. induction doc as [|e doc IH]; intros doc';
    simpl; [discriminate|].
  destruct (p e) eqn:Hp.
  - intros [= <-]. simpl. rewrite !andb_true_iff. intros [He Hd].
    split; [now apply Hq | exact Hd].
  - destruct (updateFirst p f doc) as [d|]; [|discriminate].
    intros [= <-]. simpl. rewrite !andb_true_iff. intros [He Hd].
    split; [exact He | now apply IH].
Qed.

Lemma updateFirst_reaches (q : Block -> bool) (doc doc' : list Block) :
  (forall e, p e = true -> q (f e) = true) ->
  updateFirst p f doc = Some doc' ->
  existsb q doc' = true.
Proof.
  intros Hq. revert doc'. induction doc as [|e doc IH]; intros doc';
    simpl; [discriminate|].
  destruct (p e) eqn:Hp.
  - intros [= <-]. simpl. now rewrite (Hq e Hp).
  - destruct (updateFirst p f doc) as [d|]; [|discriminate].
    intros [= <-]. simpl. rewrite (IH d eq_refl). apply orb_true_r.
Qed.

Lemma updateFirst_existsb (q : Block -> bool) (doc doc' : list Block) :
  (forall e, q (f e) = q e) ->
  updateFirst p f doc = Some doc' ->
  existsb q doc' = existsb q doc.
Proof.
  intros Hq. revert doc'. induction doc as [|e doc IH]; intros doc';
    simpl; [discriminate|].
  destruct (p e).
  - intros [= <-]. simpl. now rewrite Hq.
  - destruct (updateFirst p f doc) as [d|]; [|discriminate].
    intros [= <-]. simpl. now rewrite (IH d eq_refl).
Qed.

End UpdateFirst.

Lemma existsb_map_same (q : Block -> bool) (g : Block -> Block)
    (doc : list Block) :
  (forall e, q (g e) = q e) -> existsb q (map g doc) = existsb q doc.
Proof.
  intros Hq. induction doc as [|e doc IH]; simpl; [reflexivity|].
  now rewrite Hq, IH.
Qed.

Lemma forallb_map_all (q : Block -> bool) (g : Block -> Block)
    (doc : list Block) :
  (forall e, q (g e) = true) -> forallb q (map g doc) = true.
Proof.
  intros Hq. induction doc as [|e doc IH]; simpl; [reflexivity|].
  now rewrite Hq, IH.
Qed.

Lemma forallb_map_same (q : Block -> bool) (g : Block -> Block)
    (doc : list Block) :
  (forall e, q (g e) = q e) -> forallb q (map g doc) = forallb q doc.
Proof.
  intros Hq. induction doc as [|e doc IH]; simpl; [reflexivity|].
  now rewrite Hq, IH.
Qed.

Lemma block_hasClass_removeActive (c : string) (e : Block) :
  hasClass c (removeActive e) =
  if String.eqb c "active" then false else hasClass c e.
Proof.
  unfold hasClass, removeActive. simpl.
  induction (blk_class e) as [|x cs IH]; simpl.
  - now destruct (String.eqb c "active").
  - destruct (String.eqb x "active") eqn:Hx; simpl.
    + rewrite IH. apply String.eqb_eq in Hx. subst x.
      now destruct (String.eqb c "active").
    + rewrite IH. destruct (String.eqb c "active") eqn:Hc; [|reflexivity].
      apply String.eqb_eq in Hc. subst c.
      now rewrite String.eqb_sym, Hx.
Qed.

Lemma block_hasClass_addActive (c : string) (e : Block) :
  hasClass c (addActive e) = hasClass c e || String.eqb c "active".
Proof.
  unfold addActive.
  destruct (hasClass "active" e) eqn:Ha.
  - destruct (String.eqb_spec c "active") as [->|Hne];
      [now rewrite Ha | now rewrite orb_false_r].
  - unfold hasClass. simpl. rewrite existsb_app. simpl.
    now rewrite orb_false_r.
Qed.

Lemma block_hasId_addActive (id : string) (e : Block) :
  hasId id (addActive e) = hasId id e.
Proof. unfold addActive. now destruct (hasClass "active" e). Qed.

Local Abbreviation dropCards :=
  (fun e => if hasClass "method-card" e then removeActive e else e).
Local Abbreviation hideContents :=
  (fun e => if hasClass "management-content" e then setDisplay "none" e else e).

Lemma hasId_dropCards (id : string) (e : Block) :
  hasId id (dropCards e) = hasId id e.
Proof. cbv beta. now destruct (hasClass "method-card" e). Qed.

Lemma hasId_hideContents (id : string) (e : Block) :
  hasId id (hideContents e) = hasId id e.
Proof. cbv beta. now destruct (hasClass "management-content" e). Qed.

Lemma cards_dropped (method : string) (doc : list Block) :
  onlyActive method (map dropCards doc) = true.
Proof.
  apply forallb_map_all. intros e. cbv beta.
  destruct (hasClass "method-card" e) eqn:Hcard.
  - now rewrite !block_hasClass_removeActive, andb_false_r.
  - now rewrite Hcard.
Qed.

Lemma contents_hidden (doc : list Block) :
  forallb (fun e => negb (hasClass "management-content" e)
                    || String.eqb (blk_display e) "none")
          (map hideContents doc) = true.
Proof.
  apply forallb_map_all. intros e. cbv beta.
  destruct (hasClass "management-content" e) eqn:Hc; [apply orb_true_r|].
  now rewrite Hc.
Qed.

(** The switch when the card exists: the document after the first three
    statements. *)
Lemma switchTo_card (method content : string) (doc : list Block) :
  existsb (hasId method) doc = true ->
  exists d2,
    updateFirst (hasId method) addActive (map dropCards doc) = Some d2
    /\ existsb (hasId content) (map hideContents d2)
       = existsb (hasId content) doc
    /\ onlyActive method (map hideContents d2) = true
    /\ existsb (fun e => hasId method e && hasClass "active" e)
               (map hideContents d2) = true.
Proof.
  intros Em.
  assert (Em' : existsb (hasId method) (map dropCards doc) = true)
    by (rewrite existsb_map_same; [exact Em | apply hasId_dropCards]).
  destruct (block_updateFirst_some _ addActive _ Em') as [d2 Hd2].
  exists d2. split; [exact Hd2|]. split; [|split].
  - rewrite existsb_map_same by apply hasId_hideContents.
    rewrite (updateFirst_existsb _ _ (hasId content) _ _
               (block_hasId_addActive content) Hd2).
    apply existsb_map_same, hasId_dropCards.
  - unfold onlyActive. rewrite forallb_map_same
      by (intros e; cbv beta; now destruct (hasClass "management-content" e)).
    refine (updateFirst_forallb _ _ _ _ _ _ Hd2 (cards_dropped method doc)).
    intros e He. now rewrite block_hasId_addActive, He, orb_true_r.
  - rewrite existsb_map_same
      by (intros e; cbv beta; now destruct (hasClass "management-content" e)).
    refine (updateFirst_reaches _ _ _ _ _ _ Hd2).
    intros e He.
    now rewrite block_hasId_addActive, He, block_hasClass_addActive, orb_true_r.
Qed.

Lemma hasId_setDisplay (id value : string) (e : Block) :
  hasId id (setDisplay value e) = hasId id e.
Proof. reflexivity. Qed.

Lemma switchTo_outcome (method content : string) (doc : list Block) :
  isShown (switchTo method content doc)
    = existsb (hasId method) doc && existsb (hasId content) doc
  /\ (isShown (switchTo method content doc) = true ->
      onlyShown content (doc_of (switchTo method content doc)) = true
      /\ onlyActive method (doc_of (switchTo method content doc)) = true
      /\ existsb (fun e => hasId content e && String.eqb (blk_display e) "block")
                 (doc_of (switchTo method content doc)) = true
      /\ existsb (fun e => hasId method e && hasClass "active" e)
                 (doc_of (switchTo method content doc)) = true)
  /\ (existsb (hasId method) doc && negb (existsb (hasId content) doc) = true ->
      forallb (fun e => negb (hasClass "management-content" e)
                        || String.eqb (blk_display e) "none")
              (doc_of (switchTo method content doc)) = true).
Proof.
  unfold switchTo.
  destruct (existsb (hasId method) doc) eqn:Em.
  2:{ rewrite block_updateFirst_none
        by (rewrite existsb_map_same; [exact Em | apply hasId_dropCards]).
      simpl. split; [reflexivity|]. split; intros H; discriminate H. }
  destruct (switchTo_card method content doc Em)
    as (d2 & Hd2 & Hc & Hcards & Hcard).
  rewrite Hd2. rewrite andb_true_l.
  destruct (existsb (hasId content) doc) eqn:Ec.
  - destruct (block_updateFirst_some _ (setDisplay "block") _ Hc) as [d3 Hd3].
    rewrite Hd3. simpl. split; [reflexivity|].
    split; [intros _ | intros H; discriminate H].
    split; [|split; [|split]].
    + refine (updateFirst_forallb _ _ _ _ _ _ Hd3 _).
      * intros e He. cbv beta.
        now rewrite hasId_setDisplay, He, orb_true_r.
      * assert (Hh := contents_hidden d2).
        rewrite forallb_forall in Hh |- *. intros e Hin.
        specialize (Hh e Hin). rewrite orb_true_iff in Hh.
        destruct Hh as [-> | ->]; [reflexivity | apply orb_true_r].
    + unfold onlyActive in *.
      rewrite forallb_forall in Hcards.
      assert (Hpres : forallb (fun e => negb (hasClass "method-card" e
                                             && hasClass "active" e)
                                       || hasId method e)
                              (map hideContents d2) = true)
        by now rewrite forallb_forall.
      clear Hcards. revert d3 Hd3 Hpres.
      generalize (map hideContents d2). intros l.
      induction l as [|e l IH]; intros d3; simpl; [discriminate|].
      destruct (hasId content e).
      * intros [= <-]. simpl. tauto.
      * destruct (updateFirst (hasId content) (setDisplay "block") l) as [d|];
          [|discriminate].
        intros [= <-]. simpl. rewrite !andb_true_iff. intros [He Hl].
        split; [exact He | now apply IH].
    + refine (updateFirst_reaches _ _ _ _ _ _ Hd3).
      intros e He. cbv beta.
      now rewrite hasId_setDisplay, He.
    + rewrite (updateFirst_existsb (hasId content) (setDisplay "block")
                 (fun e => hasId method e && hasClass "active" e) _ _
                 (fun e => eq_refl) Hd3).
      exact Hcard.
  - rewrite (block_updateFirst_none _ (setDisplay "block") _ Hc). simpl.
    split; [reflexivity|]. split; [intros H; discriminate H|].
    intros _. apply contents_hidden.
Qed.

(** X18: each of [showApiManagement], [showScrapingManagement] and
    [showManualManagement] completes exactly when its method card and
    its content block both exist.  It then leaves its block displayed
    and every other block of class [management-content] hidden, and its
    card active and no other card of class [method-card] active.  When
    the card exists and the block does not, it stops with an exception
    after it has hidden every content block. *)
Theorem management_switch (doc : list Block) :
  Forall (fun '(show, method, content) =>
            isShown (show doc)
              = existsb (hasId method) doc && existsb (hasId content) doc
            /\ (isShown (show doc) = true ->
                onlyShown content (doc_of (show doc)) = true
                /\ onlyActive method (doc_of (show doc)) = true
                /\ existsb (fun e => hasId content e
                                     && String.eqb (blk_display e) "block")
                           (doc_of (show doc)) = true
                /\ existsb (fun e => hasId method e && hasClass "active" e)
                           (doc_of (show doc)) = true)
            /\ (existsb (hasId method) doc
                && negb (existsb (hasId content) doc) = true ->
                forallb (fun e => negb (hasClass "management-content" e)
                                  || String.eqb (blk_display e) "none")
                        (doc_of (show doc)) = true))
         [ (showApiManagement, "api-method", "api-management");
           (showScrapingManagement, "scraping-method", "scraping-management");
           (showManualManagement, "manual-method", "manual-management") ].
Proof.
  constructor;
    [exact (switchTo_outcome "api-method" "api-management" doc)|].
  constructor;
    [exact (switchTo_outcome "scraping-method" "scraping-management" doc)|].
  constructor;
    [exact (switchTo_outcome "manual-method" "manual-management" doc)|].
  constructor.
Qed.

Lemma management_switch_witness :
  isShown (showApiManagement sampleMethods) = true
  /\ onlyShown "api-management" (doc_of (showApiManagement sampleMethods)) = true
  /\ onlyActive "api-method" (doc_of (showApiManagement sampleMethods)) = true.
Proof.
  pose proof (List.Forall_inv (management_switch sampleMethods))
    as (Hs & Hshown & _).
  split; [reflexivity|].
  split; [exact (proj1 (Hshown eq_refl))
         | exact (proj1 (proj2 (Hshown eq_refl)))].
Defined.

End ManagementFacts.
